(** * Colour quantization: [color_quantizer.py] and [shader_down.py]

    A shallow embedding of the two quantization scripts.  NumPy's float64
    arithmetic is IEEE binary64, modelled with the Standard Library's
    [spec_float] operations at precision 53; PIL images are records that
    carry their mode string and one list of band samples per pixel; the
    conversions and the writers of Pillow that are not written out here, and
    the clustering routine of scikit-learn, are parameters of the
    development. *)

From Stdlib Require Import ZArith List Lia Bool String Ascii.
From Stdlib Require Import QArith Qround Lqa.
From Stdlib Require Import DecimalString.
From Stdlib Require Import Floats.SpecFloat.
Import ListNotations.

Local Open Scope Z_scope.

(** ** Ranges of integers, used to enumerate samples and shade counts *)

Fixpoint zrange (lo : Z) (n : nat) : list Z :=
  match n with
  | O => []
  | S k => lo :: zrange (lo + 1) k
  end.

(** ** Binary64 arithmetic, as NumPy applies it elementwise *)

Module Float64.

Definition float64 := spec_float.

Definition prec : Z := 53.
Definition emax : Z := 1024.

(** Conversion of an integer (a uint8 sample or a Python int) to float64,
    rounding to nearest even when the integer needs more than 53 bits. *)
Definition of_Z (z : Z) : float64 := binary_normalize prec emax z 0 false.

Definition add : float64 -> float64 -> float64 := SFadd prec emax.

Definition sub : float64 -> float64 -> float64 := SFsub prec emax.

Definition mul : float64 -> float64 -> float64 := SFmul prec emax.

(** NumPy's true division: a zero divisor gives an infinity or a NaN (and a
    warning), never an exception. *)
Definition div : float64 -> float64 -> float64 := SFdiv prec emax.

(** The integer [m * 2^e] scaled down to a whole number, rounding towards
    minus infinity. *)
Definition scale (n e : Z) : Z :=
  if 0 <=? e then Z.shiftl n e else Z.shiftr n (- e).

(** [np.floor]: the largest integral float64 not above the argument. *)
Definition floor (x : float64) : float64 :=
  match x with
  | S754_finite s m e =>
      if 0 <=? e then x
      else match scale (if s then Zneg m else Zpos m) e with
           | Z0 => S754_zero s
           | n => of_Z n
           end
  | _ => x
  end.

(** Truncation towards zero of a finite float64. *)
Definition trunc (x : float64) : option Z :=
  match x with
  | S754_zero _ => Some 0
  | S754_finite s m e =>
      let a := scale (Zpos m) e in Some (if s then - a else a)
  | S754_infinity _ | S754_nan => None
  end.

(** The exact rational value of a finite float64 (0 for the others). *)
Definition to_Q (x : float64) : Q :=
  match x with
  | S754_finite s m e =>
      let n := if s then Zneg m else Zpos m in
      if 0 <=? e then inject_Z (Z.shiftl n e)
      else Qmake n (Z.to_pos (Z.shiftl 1 (- e)))
  | _ => 0%Q
  end.

(** A float64 that holds a whole number. *)
Definition integral (x : float64) : Prop := exists z, (to_Q x == inject_Z z)%Q.

Definition is_finite (x : float64) : bool :=
  match x with
  | S754_zero _ | S754_finite _ _ _ => true
  | _ => false
  end.

(** A Python int as the scalar operand of an array operation: an integer
    that rounds beyond the largest float64 is refused with an OverflowError
    ([None]). *)
Definition of_int (z : Z) : option float64 :=
  let x := of_Z z in
  if is_finite x then Some x else None.

(** [astype(np.uint8)]: the fraction is dropped (towards zero) and the low
    eight bits of the integer are kept; an infinity or a NaN gives the low
    byte of the conversion's "invalid" result, which is 0. *)
Definition astype_uint8 (x : float64) : Z :=
  match trunc x with
  | Some n => n mod 256
  | None => 0
  end.

End Float64.

Import Float64.

(** ** The per-sample map of the uniform quantizer
    ([color_quantizer.py], lines 42-48) *)

(** [img_np / 255.0] *)
Definition normalize (v : Z) : float64 := div (of_Z v) (of_Z 255).

(** [np.floor(img_normalized * num_shades)] *)
Definition level (num_shades v : Z) : float64 :=
  floor (mul (normalize v) (of_Z num_shades)).

(** [(level / (num_shades - 1) * 255).astype(np.uint8)] *)
Definition dequantize (num_shades : Z) (l : float64) : Z :=
  astype_uint8 (mul (div l (of_Z (num_shades - 1))) (of_Z 255)).

Definition quantize_sample (num_shades v : Z) : Z :=
  dequantize num_shades (level num_shades v).

(** The uniform quantizer as the specification words it: exact arithmetic,
    rounding to the nearest integer, clamping to [0,255]. *)
Definition round_nearest (q : Q) : Z := Qfloor (q + (1 # 2))%Q.

Definition clamp (z : Z) : Z := Z.max 0 (Z.min 255 z).

Definition spec_uniform (N v : Z) : Z :=
  let normalized := (inject_Z v / inject_Z 255)%Q in
  let lvl := Qfloor (normalized * inject_Z N)%Q in
  let quantized_normalized := (inject_Z lvl / inject_Z (N - 1))%Q in
  clamp (round_nearest (quantized_normalized * inject_Z 255)%Q).

(** The output grid for [N] shades: the values of the levels [0 .. N-1]. *)
Definition on_grid (N g : Z) : Prop :=
  exists k, 0 <= k <= N - 1 /\ g = dequantize N (of_Z k).

(** ** Boolean checks over the finite range of samples and shade counts *)

Definition sf_eqb (x y : float64) : bool :=
  match x, y with
  | S754_zero a, S754_zero b => Bool.eqb a b
  | S754_infinity a, S754_infinity b => Bool.eqb a b
  | S754_nan, S754_nan => true
  | S754_finite a m e, S754_finite b n f =>
      Bool.eqb a b && Pos.eqb m n && Z.eqb e f
  | _, _ => false
  end.

(** The float64 level [l] computed for sample [v] is the integer [k], which
    is the exact floor of [v * N / 255] or, when 255 divides [v * N], possibly
    one below it. *)
Definition level_ok (N v : Z) (l : float64) : bool :=
  match trunc l with
  | Some k =>
      sf_eqb l (of_Z k) && (0 <=? k) && (k <=? N - 1)
      && ((k =? v * N / 255)
          || ((k =? v * N / 255 - 1) && ((v * N) mod 255 =? 0)))
  | None => false
  end.

Definition level_row_ok (Ns : list Z) (v : Z) : bool :=
  let img_normalized := normalize v in
  forallb (fun N => level_ok N v (floor (mul img_normalized (of_Z N)))) Ns.

Definition dequantize_row_ok (N : Z) : bool :=
  forallb (fun k => dequantize N (of_Z k) =? 255 * k / (N - 1))
          (zrange 0 (Z.to_nat N)).

(** For each level value [g = dequantize N k], [k < N], other than the top
    value 255, quantizing [g] twice gives what quantizing it once gives. *)
Definition grid_row_ok (N : Z) : bool :=
  forallb (fun k =>
             let g := dequantize N (of_Z k) in
             (g =? 255)
             || (quantize_sample N (quantize_sample N g) =? quantize_sample N g))
          (zrange 0 (Z.to_nat N)).

(** For each level value [g] other than 255, quantizing [g] gives [g]. *)
Definition grid_fixed_row_ok (N : Z) : bool :=
  forallb (fun k =>
             let g := dequantize N (of_Z k) in
             (g =? 255) || (quantize_sample N g =? g))
          (zrange 0 (Z.to_nat N)).

(** The values a sample can come out as with [N] shades: the [N] level
    values, and what sample 255 is sent to. *)
Definition output_values (N : Z) : list Z :=
  map (fun k => dequantize N (of_Z k)) (zrange 0 (Z.to_nat N))
  ++ [quantize_sample N 255].

(** All rows of three samples drawn from [G]. *)
Definition triples (G : list Z) : list (list Z) :=
  flat_map (fun a => flat_map (fun b => map (fun c => [a; b; c]) G) G) G.

(** ** Python strings and paths *)

Module Py.

Definition lower_char (c : ascii) : ascii :=
  let n := nat_of_ascii c in
  if (65 <=? n)%nat && (n <=? 90)%nat then ascii_of_nat (n + 32) else c.

(** [str.lower], on ASCII text *)
Fixpoint lower (s : string) : string :=
  match s with
  | EmptyString => EmptyString
  | String c s' => String (lower_char c) (lower s')
  end.

(** [s.endswith(suffix)] *)
Definition endswith (s suffix : string) : bool :=
  let n := String.length s in
  let k := String.length suffix in
  (k <=? n)%nat && String.eqb (substring (n - k) k s) suffix.

(** [sub in s] *)
Fixpoint contains (sub s : string) : bool :=
  String.prefix sub s
  || match s with
     | EmptyString => false
     | String _ s' => contains sub s'
     end.

(** [s.rfind(c)]: the last index of the character, or -1 *)
Fixpoint rfind_from (c : ascii) (s : string) (i last : Z) : Z :=
  match s with
  | EmptyString => last
  | String d s' => rfind_from c s' (i + 1) (if Ascii.eqb c d then i else last)
  end.

Definition rfind (c : ascii) (s : string) : Z := rfind_from c s 0 (-1).

Fixpoint all_dots (s : string) : bool :=
  match s with
  | EmptyString => true
  | String c s' => Ascii.eqb c "." && all_dots s'
  end.

(** [os.path.splitext] with separator [/]: the extension starts at the last
    dot of the last component, unless only dots precede it there. *)
Definition splitext (p : string) : string * string :=
  let sepIndex := rfind "/" p in
  let dotIndex := rfind "." p in
  if sepIndex <? dotIndex then
    let filenameIndex := Z.to_nat (sepIndex + 1) in
    let d := Z.to_nat dotIndex in
    if all_dots (substring filenameIndex (d - filenameIndex) p) then (p, EmptyString)
    else (substring 0 d p, substring d (String.length p - d) p)
  else (p, EmptyString).

(** [str] of an integer *)
Definition str (n : Z) : string := NilZero.string_of_int (Z.to_int n).

(** A call either returns or lets an exception escape. *)
Inductive Run (A : Type) : Type :=
  | Done (a : A)
  | Raise.

Arguments Done {A} a.
Arguments Raise {A}.

End Py.

(** ** NumPy arrays of rows *)

Module Numpy.

Definition row_eq_dec : forall x y : list Z, {x = y} + {x <> y} :=
  list_eq_dec Z.eq_dec.

(** [np.unique(a, axis=0)], here without the sorting: only its List.length and
    its members are used. *)
Definition unique (a : list (list Z)) : list (list Z) := nodup row_eq_dec a.

Definition count_unique (a : list (list Z)) : Z := Z.of_nat (List.length (unique a)).

(** [a[i]] with Python's negative indices; [None] is an IndexError. *)
Definition index {A : Type} (a : list A) (i : Z) : option A :=
  let n := Z.of_nat (List.length a) in
  if (0 <=? i) && (i <? n) then nth_error a (Z.to_nat i)
  else if (- n <=? i) && (i <? 0) then nth_error a (Z.to_nat (n + i))
  else None.

(** [a[idx]] for an index array *)
Fixpoint take {A : Type} (a : list A) (idx : list Z) : option (list A) :=
  match idx with
  | [] => Some []
  | i :: rest =>
      match index a i, take a rest with
      | Some x, Some xs => Some (x :: xs)
      | _, _ => None
      end
  end.

(** The index of the first occurrence of a row. *)
Fixpoint position (x : list Z) (U : list (list Z)) : Z :=
  match U with
  | [] => 0
  | y :: U' => if row_eq_dec x y then 0 else 1 + position x U'
  end.

(** A row of uint8 samples. *)
Definition byte_row (px : list Z) : Prop := Forall (fun v => 0 <= v <= 255) px.

End Numpy.

(** ** PIL images *)

Module PIL.

Local Open Scope string_scope.
Local Open Scope list_scope.
Local Open Scope Z_scope.

(** An image carries its mode, its size (width, height) and its pixels in
    row-major order, each pixel a list of band samples. *)
Record Image : Type := mkImage {
  mode : string;
  size : Z * Z;
  getdata : list (list Z)
}.

Definition luma3 (px : list Z) : list Z :=
  let l := nth 0 px 0 in [l; l; l].

(** The files of the run, decoded: [Image.open] fails on a path without an
    entry. *)
Definition FileSystem := string -> option Image.

(** What is left to Pillow itself: the conversions other than the few
    written out below, given as what they do to one pixel of the image
    ([None] when Pillow raises ValueError), and whether writing an image to
    a path raises (an extension without a registered format, a mode the
    format cannot hold, an error of the operating system). *)
Class Library : Type := {
  other_converter : Image -> string -> option (list Z -> list Z);
  save_raises : FileSystem -> Image -> string -> bool
}.

(** The pixel conversions of [Image.convert] that are written out here;
    [None] stands for a pair of modes left to the library. *)
Definition pixel_converter (src dst : string) : option (list Z -> list Z) :=
  if String.eqb src dst then Some (fun px => px)
  else if String.eqb src "RGBA" && String.eqb dst "RGB" then Some (firstn 3)
  else if String.eqb src "RGB" && String.eqb dst "RGBA" then Some (fun px => px ++ [255])
  else if String.eqb src "L" && String.eqb dst "RGB" then Some luma3
  else if String.eqb src "L" && String.eqb dst "RGBA" then Some (fun px => luma3 px ++ [255])
  else if String.eqb src "LA" && String.eqb dst "RGB" then Some luma3
  else if String.eqb src "LA" && String.eqb dst "RGBA" then
    Some (fun px => luma3 px ++ [nth 1 px 0])
  else None.

(** [im.convert(dst)]; [None] is the ValueError of an unavailable
    conversion. *)
Definition convert {lib : Library} (dst : string) (im : Image) : option Image :=
  let converter :=
    match pixel_converter (mode im) dst with
    | Some f => Some f
    | None => other_converter im dst
    end in
  match converter with
  | Some f => Some {| mode := dst; size := size im; getdata := map f (getdata im) |}
  | None => None
  end.

(** [im.split()[-1]]: the last band *)
Definition last_band (im : Image) : list Z :=
  map (fun px => last px 0) (getdata im).

(** [Image.fromarray] on an array of rows, the size carried along *)
Definition fromarray (sz : Z * Z) (a : list (list Z)) (m : string) : Image :=
  {| mode := m; size := sz; getdata := a |}.

(** [im.putalpha(alpha)] on an RGBA image: the fourth band is replaced;
    [None] is the ValueError of a band of another size. *)
Definition putalpha (im : Image) (alpha : list Z) : option Image :=
  if (List.length alpha =? List.length (getdata im))%nat then
    Some {| mode := mode im; size := size im;
            getdata := map (fun pa => firstn 3 (fst pa) ++ [snd pa])
                           (combine (getdata im) alpha) |}
  else None.

(** Every pixel of the image has four samples. *)
Definition rgba_pixels (im : Image) : Prop :=
  Forall (fun px => List.length px = 4%nat) (getdata im).

(** Pillow's modes, each with whether it carries an alpha band. *)
Definition modes : list (string * bool) :=
  [("1", false); ("L", false); ("P", false); ("RGB", false); ("RGBA", true);
   ("CMYK", false); ("YCbCr", false); ("LAB", false); ("HSV", false);
   ("I", false); ("F", false); ("LA", true); ("PA", true); ("RGBX", false);
   ("RGBa", true); ("La", true); ("I;16", false); ("I;16L", false);
   ("I;16B", false); ("I;16N", false)].

(** The files once an image is written to a path. *)
Definition write (fs : FileSystem) (im : Image) (path : string) : FileSystem :=
  fun p => if String.eqb p path then Some im else fs p.

(** [im.save(path)]; [None] is the exception of a failed write. *)
Definition save {lib : Library} (fs : FileSystem) (im : Image) (path : string)
  : option FileSystem :=
  if save_raises fs im path then None else Some (write fs im path).

End PIL.

(** ** [color_quantizer.py] *)

Module ColorQuantizer.

Import Py Numpy PIL.
Local Open Scope string_scope.
Local Open Scope list_scope.
Local Open Scope Z_scope.

Section WithLibrary.

Context {lib : Library}.

Definition load_image (fs : FileSystem) (image_path : string) : option Image :=
  match fs image_path with
  | Some img =>
      if endswith (lower image_path) ".png" then convert "RGBA" img
      else Some img
  | None => None
  end.

(** The image returned by [quantize_colors], with the two counts it prints. *)
Record Quantized : Type := mkQuantized {
  img_result : Image;
  original_colors : Z;
  result_colors : Z
}.

Definition has_alpha (image : Image) : bool := contains "A" (mode image).

Definition quantize_colors (image : Image) (num_shades : Z) : option Quantized :=
  match convert "RGB" image with
  | None => None
  | Some rgb_channels =>
      let alpha := last_band image in
      let img_np := getdata rgb_channels in
      let original := count_unique img_np in
      let img_normalized := map (map normalize) img_np in
      match of_int num_shades, of_int (num_shades - 1) with
      | Some shades, Some steps =>
          let img_quantized :=
            map (map (fun x => div (floor (mul x shades)) steps))
                img_normalized in
          let img_quantized :=
            map (map (fun x => astype_uint8 (mul x (of_Z 255)))) img_quantized in
          let result :=
            if has_alpha image then
              match convert "RGBA" (fromarray (size image) img_quantized "RGB") with
              | Some r => putalpha r alpha
              | None => None
              end
            else Some (fromarray (size image) img_quantized "RGB") in
          match result with
          | Some r => Some {| img_result := r;
                              original_colors := original;
                              result_colors := count_unique img_quantized |}
          | None => None
          end
      | _, _ => None
      end
  end.

(** The directory of the path is created when it is missing, then the image
    is written; an exception of either step escapes. *)
Definition save_image (fs : FileSystem) (image : Image) (output_path : string)
  : Run FileSystem :=
  match save fs image output_path with
  | Some fs' => Done fs'
  | None => Raise
  end.

Record Args : Type := mkArgs {
  image_path : string;
  colors : Z;
  output : option string
}.

Definition default_output (image_path : string) (n : Z) : string :=
  let (file_name, file_ext) := splitext image_path in
  String.append file_name (String.append "_quantized_" (String.append (str n) file_ext)).

Definition main (fs : FileSystem) (args : Args) : Run FileSystem :=
  let output :=
    match output args with
    | Some o => o
    | None => default_output (image_path args) (colors args)
    end in
  match load_image fs (image_path args) with
  | Some image =>
      match quantize_colors image (colors args) with
      | Some q => save_image fs (img_result q) output
      | None => Raise
      end
  | None => Done fs
  end.

(** The path [main] writes to. *)
Definition output_of (args : Args) : string :=
  match output args with
  | Some o => o
  | None => default_output (image_path args) (colors args)
  end.

End WithLibrary.

End ColorQuantizer.

(** ** [shader_down.py] *)

Module ShaderDown.

Import Py Numpy PIL.
Local Open Scope string_scope.
Local Open Scope list_scope.
Local Open Scope Z_scope.

(** Whatever a run can draw on besides its arguments: the state of NumPy's
    global random generator. *)
Definition Entropy := Z.

(** What [KMeans(...).fit_predict] returns: a label per sample and the
    array [cluster_centers_]. *)
Definition Fit : Type := (list Z * list (list float64))%type.

(** Lines 50-70, with the values they bind. *)
Record Clustered : Type := mkClustered {
  original_color_count : Z;
  num_colors_used : Z;
  labels : list Z;
  centers : list (list Z);
  quantized_pixels : list (list Z)
}.

Section Clustering.

Context {lib : Library}.

(** The rows handed to the clustering step (lines 23-48): the first three
    samples of each pixel of an RGBA image, else the pixels of the image
    converted to RGB. *)
Definition flattened_of (img : Image) : option (list (list Z)) :=
  if String.eqb (mode img) "RGBA" then Some (map (firstn 3) (getdata img))
  else option_map getdata (convert "RGB" img).

(** [KMeans(n_clusters, random_state, n_init).fit_predict(X)] of
    scikit-learn, with the entropy it may draw on; [None] is an exception. *)
Variable KMeans :
  Z -> option Z -> Z -> Entropy -> list (list Z) -> option Fit.

Definition effective_num_colors (original_color_count num_colors : Z) : Z :=
  if original_color_count <=? num_colors then original_color_count
  else num_colors.

Definition cluster_pixels (g : Entropy) (flattened_pixels : list (list Z))
    (num_colors : Z) : option Clustered :=
  let original_color_count := count_unique flattened_pixels in
  let num_colors := effective_num_colors original_color_count num_colors in
  match KMeans num_colors (Some 42) 10 g flattened_pixels with
  | None => None
  | Some (labels, centers) =>
      let centers := map (map astype_uint8) centers in
      match take centers labels with
      | Some quantized_pixels =>
          Some {| original_color_count := original_color_count;
                  num_colors_used := num_colors;
                  labels := labels;
                  centers := centers;
                  quantized_pixels := quantized_pixels |}
      | None => None
      end
  end.

Definition default_output (image_path : string) (n : Z) : string :=
  let (file_name, file_ext) := splitext image_path in
  String.append file_name (String.append "_quantized_" (String.append (str n) file_ext)).

(** The image assembled from the quantized rows (lines 73-86); [None] is
    the error of [reshape] when the rows do not fill the original shape. *)
Definition assemble (img : Image) (img_mode : string)
    (quantized_pixels : list (list Z)) : option Image :=
  let pixels := getdata img in
  if (List.length quantized_pixels =? List.length pixels)%nat
     && forallb (fun q => (List.length q =? 3)%nat) quantized_pixels
  then
    if String.eqb img_mode "RGBA" then
      let alpha := map (fun px => nth 3 px 0) pixels in
      Some (fromarray (size img)
              (map (fun qa => fst qa ++ [snd qa])
                   (combine quantized_pixels alpha)) img_mode)
    else Some (fromarray (size img) quantized_pixels img_mode)
  else None.

(** Lines 93-96: the image is written and the path returned; an exception
    of [save] escapes. *)
Definition save_and_return (fs : FileSystem) (quantized_img : Image)
    (output_path : string) : Run (FileSystem * option string) :=
  match save fs quantized_img output_path with
  | Some fs' => Done (fs', Some output_path)
  | None => Raise
  end.

Definition quantize_colors (fs : FileSystem) (g : Entropy)
    (image_path : string) (num_colors : Z) (output_path : option string)
  : Run (FileSystem * option string) :=
  let opened :=
    match fs image_path with
    | Some img =>
        if String.eqb (mode img) "RGBA" then Some ("RGBA", img)
        else match convert "RGB" img with
             | Some rgb => Some ("RGB", rgb)
             | None => None
             end
    | None => None
    end in
  match opened with
  | None => Done (fs, None)
  | Some (img_mode, img) =>
      let pixels := getdata img in
      let flattened_pixels :=
        if String.eqb img_mode "RGBA" then map (firstn 3) pixels else pixels in
      match cluster_pixels g flattened_pixels num_colors with
      | None => Raise
      | Some c =>
          match assemble img img_mode (quantized_pixels c) with
          | None => Raise
          | Some quantized_img =>
              let output_path :=
                match output_path with
                | Some o => o
                | None => default_output image_path (num_colors_used c)
                end in
              save_and_return fs quantized_img output_path
          end
      end
  end.

Record Args : Type := mkArgs {
  image_path : string;
  colors : Z;
  output : option string
}.

(** [main] passes the parsed arguments on and drops the returned path. *)
Definition main (fs : FileSystem) (g : Entropy) (args : Args)
  : Run FileSystem :=
  match quantize_colors fs g (image_path args) (colors args) (output args) with
  | Done (fs', _) => Done fs'
  | Raise => Raise
  end.

End Clustering.

(** *** The contract of the clustering step *)

(** Shapes as scikit-learn documents them: one label per sample, each label
    below [n_clusters], one centre per cluster, three coordinates each. *)
Definition fit_shape (n_clusters : Z) (X : list (list Z)) (f : Fit) : Prop :=
  List.length (fst f) = List.length X
  /\ Forall (fun l => 0 <= l < n_clusters) (fst f)
  /\ List.length (snd f) = Z.to_nat n_clusters
  /\ Forall (fun c => List.length c = 3%nat) (snd f).

(** The samples a label selects. *)
Definition members (X : list (list Z)) (labels : list Z) (c : Z)
  : list (list Z) :=
  map fst (filter (fun xl => snd xl =? c) (combine X labels)).

Definition channel_sum (ch : nat) (rows : list (list Z)) : Z :=
  fold_right Z.add 0 (map (fun px => nth ch px 0) rows).

(** The exact per-channel mean of a non-empty list of rows. *)
Definition mean (ch : nat) (rows : list (list Z)) : Q :=
  channel_sum ch rows # Pos.of_nat (List.length rows).

(** Every coordinate of every centre is a finite float64. *)
Definition finite_centres (f : Fit) : Prop :=
  Forall (Forall (fun x => is_finite x = true)) (snd f).

(** Modelled from the spec: the clustering library is not part of the
    sources; section 4.4 step 3 has each centroid be the per-channel mean of
    its member samples.  A float64 holds a mean such as 94/3 only up to
    rounding, and the library's own arithmetic adds to that, so the contract
    carries a tolerance: the centre of a non-empty cluster is a finite
    float64 within [eps] of the mean. *)
Definition centroids_near_means (eps : Q) (X : list (list Z)) (f : Fit) : Prop :=
  forall c centre ch x,
    nth_error (snd f) (Z.to_nat c) = Some centre -> 0 <= c ->
    members X (fst f) c <> [] ->
    nth_error centre ch = Some x ->
    is_finite x = true
    /\ (mean ch (members X (fst f) c) - eps <= to_Q x)%Q
    /\ (to_Q x <= mean ch (members X (fst f) c) + eps)%Q.

Definition sqdist (px : list Z) (centre : list Q) : Q :=
  fold_right Qplus 0%Q
    (map (fun xc => (inject_Z (fst xc) - snd xc) * (inject_Z (fst xc) - snd xc))%Q
         (combine px centre)).

(** The total within-cluster squared distance of an assignment. *)
Definition inertia (X : list (list Z)) (labels : list Z)
    (centres : list (list Q)) : Q :=
  fold_right Qplus 0%Q
    (map (fun xl => sqdist (fst xl) (nth (Z.to_nat (snd xl)) centres []))
         (combine X labels)).

(** Modelled from the spec: the clustering library is not part of the
    sources; section 4.4 step 2 has the clustering minimise the
    within-cluster squared Euclidean distance.  The centres returned are
    finite, and no assignment of the samples to [n_clusters] centres of three
    coordinates has a total that is smaller than the returned one by more
    than [eps], the room left for the rounding of the library's float64
    arithmetic. *)
Definition minimal_inertia (eps : Q) (n_clusters : Z) (X : list (list Z))
    (f : Fit) : Prop :=
  finite_centres f
  /\ forall labels' centres',
       List.length labels' = List.length X ->
       Forall (fun l => 0 <= l < n_clusters) labels' ->
       List.length centres' = Z.to_nat n_clusters ->
       Forall (fun c => List.length c = 3%nat) centres' ->
       (inertia X (fst f) (map (map to_Q) (snd f))
        <= inertia X labels' centres' + eps)%Q.

(** Modelled from the spec: the clustering library is not part of the
    sources; section 4.4 step 2 has a fixed seed make repeated runs on
    identical input identical.  With an integer [random_state] the result
    does not depend on the entropy of the run. *)
Definition seeded_reproducible
    (KMeans : Z -> option Z -> Z -> Entropy -> list (list Z) -> option Fit)
  : Prop :=
  forall n_clusters seed n_init g g' X,
    KMeans n_clusters (Some seed) n_init g X
    = KMeans n_clusters (Some seed) n_init g' X.

End ShaderDown.

(** ** Sample data and a small clustering routine *)

Module Samples.

Import Py Numpy PIL ShaderDown.
Local Open Scope string_scope.
Local Open Scope list_scope.
Local Open Scope Z_scope.

Definition channel_mean (rows : list (list Z)) (ch : nat) : float64 :=
  div (of_Z (channel_sum ch rows)) (of_Z (Z.of_nat (List.length rows))).

(** A clustering routine for the two easy cases: one cluster per distinct
    colour, or a single cluster at the mean.  Without a seed the numbering
    of the clusters follows the entropy. *)
Definition simple_fit (n_clusters : Z) (random_state : option Z) (n_init : Z)
    (g : Entropy) (X : list (list Z)) : option Fit :=
  let U := match random_state with
           | Some _ => unique X
           | None => if Z.even g then unique X else rev (unique X)
           end in
  if n_clusters <? 1 then None
  else if n_clusters =? Z.of_nat (List.length U) then
    Some (map (fun x => position x U) X, map (map of_Z) U)
  else if n_clusters =? 1 then
    Some (map (fun _ => 0) X, [map (channel_mean X) [0%nat; 1%nat; 2%nat]])
  else None.

(** The 2x2 RGBA image of the specification's scenario. *)
Definition rgba_2x2 : Image :=
  {| mode := "RGBA"; size := (2, 2);
     getdata := [[0; 0; 0; 255]; [255; 255; 255; 255];
                 [0; 0; 0; 0]; [255; 255; 255; 0]] |}.

Definition rgba_mixed : Image :=
  {| mode := "RGBA"; size := (2, 2);
     getdata := [[10; 20; 30; 255]; [200; 100; 50; 128];
                 [10; 20; 30; 7]; [90; 90; 90; 0]] |}.

Definition rgb_three : Image :=
  {| mode := "RGB"; size := (3, 1);
     getdata := [[0; 0; 0]; [200; 0; 0]; [0; 200; 0]] |}.

Definition rgb_pair : Image :=
  {| mode := "RGB"; size := (2, 1);
     getdata := [[10; 20; 30]; [11; 21; 31]] |}.

Definition lab_pixel : Image :=
  {| mode := "LAB"; size := (1, 1); getdata := [[128; 10; 20]] |}.

(** Two colours, five pixels of the first and two of the second. *)
Definition rgb_drift : Image :=
  {| mode := "RGB"; size := (7, 1);
     getdata := [[21; 19; 165]; [21; 19; 165]; [21; 115; 165];
                 [21; 19; 165]; [21; 19; 165]; [21; 19; 165];
                 [21; 115; 165]] |}.

Definition files : FileSystem :=
  fun p =>
    if String.eqb p "scene.png" then Some rgba_2x2
    else if String.eqb p "mixed.png" then Some rgba_mixed
    else if String.eqb p "three.PNG" then Some rgb_three
    else if String.eqb p "three.bmp" then Some rgb_three
    else if String.eqb p "pair.bmp" then Some rgb_pair
    else if String.eqb p "photo.tif" then Some lab_pixel
    else if String.eqb p "drift.bmp" then Some rgb_drift
    else None.

(** A sample library.  It converts a LAB pixel to the grey of its lightness,
    a stand-in for Pillow's colour transform, and no other mode; it writes
    PNG, BMP, TIFF and JPEG files by their extension, and refuses a JPEG for
    a mode with the letter A. *)
Definition pillow : Library :=
  {| other_converter := fun im dst =>
       if String.eqb (mode im) "LAB" && String.eqb dst "RGB" then Some luma3
       else None;
     save_raises := fun _ im path =>
       let ext := lower (snd (splitext path)) in
       if String.eqb ext ".jpg" then contains "A" (mode im)
       else negb (String.eqb ext ".png" || String.eqb ext ".bmp"
                  || String.eqb ext ".tif") |}.

(** A clustering routine for as many clusters as colours that computes the
    way scikit-learn does: on the samples with their overall mean
    subtracted, each centre the sum of its members, added one by one, times
    the reciprocal of their number, the overall mean added back at the
    end. *)
Definition centred_sum (d : float64) (count : nat) : float64 :=
  fold_right (fun _ acc => add acc d) (S754_zero false) (repeat tt count).

Definition centred_centre (X : list (list Z)) (count : nat) (colour : list Z)
  : list float64 :=
  map (fun ch =>
         let X_mean := channel_mean X ch in
         let d := sub (of_Z (nth ch colour 0)) X_mean in
         let alpha := div (of_Z 1) (of_Z (Z.of_nat count)) in
         add (mul (centred_sum d count) alpha) X_mean)
      [0%nat; 1%nat; 2%nat].

Definition centred_fit (n_clusters : Z) (random_state : option Z) (n_init : Z)
    (g : Entropy) (X : list (list Z)) : option Fit :=
  let U := unique X in
  if n_clusters =? Z.of_nat (List.length U) then
    Some (map (fun x => position x U) X,
          map (fun u => centred_centre X (count_occ row_eq_dec X u) u) U)
  else None.

(** What [simple_fit] returns on the samples above. *)
Definition three_fit : Fit :=
  ([0; 1; 2], map (map of_Z) (getdata rgb_three)).

Definition mixed_fit : Fit :=
  ([1; 0; 1; 2], map (map of_Z) [[200; 100; 50]; [10; 20; 30]; [90; 90; 90]]).

Definition pair_fit : Fit :=
  ([0; 0], [map (channel_mean (getdata rgb_pair)) [0%nat; 1%nat; 2%nat]]).

(** What [centred_fit] returns on [rgb_drift]: the second coordinate of the
    first centre is the float64 just below 19. *)
Definition drift_fit : Fit :=
  ([0; 0; 1; 0; 0; 0; 1],
   [[of_Z 21; S754_finite false 5348024557502463 (-48); of_Z 165];
    [of_Z 21; of_Z 115; of_Z 165]]).

End Samples.

(** * Properties *)

(** ** The embedding at work on small inputs *)

Example quantize_four_shades :
  map (quantize_sample 4) [0; 63; 64; 127; 128; 191; 192; 254; 255]
  = [0; 0; 85; 85; 170; 170; 255; 255; 84].
Proof. vm_compute. reflexivity. Qed.

Example normalize_85 :
  normalize 85 = S754_finite false 6004799503160661 (-54).
Proof. vm_compute. reflexivity. Qed.

Example png_suffix :
  Py.endswith (Py.lower "Photo.PNG") ".png" = true
  /\ Py.endswith (Py.lower "a.png.jpg") ".png" = false
  /\ Py.endswith (Py.lower "png") ".png" = false.
Proof. repeat split. Qed.

Example letter_A_in_mode :
  Py.contains "A" "RGBA" = true /\ Py.contains "A" "RGB" = false
  /\ Py.contains "A" "RGBa" = false /\ Py.contains "A" "LAB" = true.
Proof. repeat split. Qed.

Example splitext_cases :
  Py.splitext "dir/photo.png" = ("dir/photo", ".png")%string
  /\ Py.splitext "dir.d/photo" = ("dir.d/photo", "")%string
  /\ Py.splitext ".bashrc" = (".bashrc", "")%string
  /\ Py.splitext "a.tar.gz" = ("a.tar", ".gz")%string.
Proof. repeat split. Qed.

Example default_output_16 :
  ColorQuantizer.default_output "dir/photo.png" 16
  = "dir/photo_quantized_16.png"%string.
Proof. reflexivity. Qed.

(** Without a seed the sample clustering routine follows the entropy. *)
Example unseeded_fit_follows_entropy :
  Samples.simple_fit 3 None 10 0 (PIL.getdata Samples.rgb_three)
  <> Samples.simple_fit 3 None 10 1 (PIL.getdata Samples.rgb_three).
Proof. vm_compute. discriminate. Qed.

(** ** Reading the tables *)

Lemma In_zrange (n : nat) :
  forall lo z, lo <= z < lo + Z.of_nat n -> In z (zrange lo n).
Proof.
  induction n as [|n IH]; intros lo z Hz.
  - lia.
  - cbn [zrange]. destruct (Z.eq_dec lo z) as [->|Hne].
    + now left.
    + right. apply IH. lia.
Qed.

Lemma sf_eqb_eq (x y : float64) : sf_eqb x y = true -> x = y.
Proof.
  destruct x as [a|a| |a m e], y as [b|b| |b n f]; cbn [sf_eqb];
    try discriminate; try reflexivity.
  - intros H. apply Bool.eqb_prop in H. now subst.
  - intros H. apply Bool.eqb_prop in H. now subst.
  - intros H. apply andb_true_iff in H as [H He].
    apply andb_true_iff in H as [Hs Hm].
    apply Bool.eqb_prop in Hs. apply Pos.eqb_eq in Hm. apply Z.eqb_eq in He.
    now subst.
Qed.

Lemma level_table : forallb (level_row_ok (zrange 2 255)) (zrange 0 255) = true.
Proof. vm_compute. reflexivity. Qed.

Lemma dequantize_table : forallb dequantize_row_ok (zrange 2 255) = true.
Proof. vm_compute. reflexivity. Qed.

Lemma grid_table : forallb grid_row_ok (zrange 2 26) = true.
Proof. vm_compute. reflexivity. Qed.

Lemma grid_fixed_table : forallb grid_fixed_row_ok (zrange 2 19) = true.
Proof. vm_compute. reflexivity. Qed.

Lemma level_spec (N v : Z) :
  2 <= N <= 256 -> 0 <= v <= 254 ->
  exists k, level N v = of_Z k /\ trunc (level N v) = Some k
    /\ 0 <= k <= N - 1
    /\ (k = v * N / 255 \/ (k = v * N / 255 - 1 /\ (v * N) mod 255 = 0)).
Proof.
  intros HN Hv.
  pose proof level_table as T.
  rewrite forallb_forall in T.
  specialize (T v (In_zrange 255 0 v ltac:(lia))).
  change (forallb (fun N => level_ok N v (level N v)) (zrange 2 255) = true) in T.
  rewrite forallb_forall in T.
  specialize (T N (In_zrange 255 2 N ltac:(lia))).
  unfold level_ok in T.
  destruct (trunc (level N v)) as [k|]; [|discriminate].
  exists k.
  repeat (apply andb_true_iff in T as [T ?]).
  apply sf_eqb_eq in T.
  repeat split; try lia; assumption.
Qed.

Lemma dequantize_spec (N k : Z) :
  2 <= N <= 256 -> 0 <= k <= N - 1 ->
  dequantize N (of_Z k) = 255 * k / (N - 1).
Proof.
  intros HN Hk.
  pose proof dequantize_table as T.
  rewrite forallb_forall in T.
  specialize (T N (In_zrange 255 2 N ltac:(lia))).
  unfold dequantize_row_ok in T.
  rewrite forallb_forall in T.
  specialize (T k (In_zrange (Z.to_nat N) 0 k ltac:(lia))).
  now apply Z.eqb_eq in T.
Qed.

Lemma levels_increasing (N j k : Z) :
  2 <= N <= 256 -> 0 <= j -> j < k ->
  255 * j / (N - 1) < 255 * k / (N - 1).
Proof.
  intros HN Hj Hjk.
  assert (H : 255 * j / (N - 1) + 1 <= 255 * k / (N - 1)).
  { replace (255 * j / (N - 1) + 1) with ((255 * j + 1 * (N - 1)) / (N - 1))
      by (rewrite Z.div_add by lia; reflexivity).
    apply Z.div_le_mono; lia. }
  lia.
Qed.

(** ** The uniform quantizer, sample by sample *)

Lemma quantize_sample_level (N v k : Z) :
  level N v = of_Z k -> quantize_sample N v = dequantize N (of_Z k).
Proof. unfold quantize_sample. now intros ->. Qed.

Lemma quantize_sample_on_grid (N v : Z) :
  2 <= N <= 256 -> 0 <= v <= 254 -> on_grid N (quantize_sample N v).
Proof.
  intros HN Hv.
  destruct (level_spec N v HN Hv) as (k & Hl & _ & Hk & _).
  exists k. split; [exact Hk | now apply quantize_sample_level].
Qed.

(** ** The uniform quantizer on whole images *)

Section UniformImage.

Import Py Numpy PIL ColorQuantizer.

Context {lib : Library}.

(** The three array passes of lines 42-48 amount to one map of the
    per-sample function. *)
Lemma array_passes (N : Z) (img_np : list (list Z)) :
  map (map (fun x => astype_uint8 (mul x (of_Z 255))))
    (map (map (fun x => div (floor (mul x (of_Z N))) (of_Z (N - 1))))
       (map (map normalize) img_np))
  = map (map (quantize_sample N)) img_np.
Proof.
  rewrite !map_map. apply map_ext. intros px.
  rewrite !map_map. apply map_ext. intros v. reflexivity.
Qed.

Lemma unique_NoDup (a : list (list Z)) : NoDup (unique a).
Proof. apply NoDup_nodup. Qed.

Lemma In_unique (a : list (list Z)) (x : list Z) : In x (unique a) <-> In x a.
Proof. apply nodup_In. Qed.

(** A list drawn from [b] has at most as many distinct rows as [b] is long. *)
Lemma count_unique_incl (a b : list (list Z)) :
  incl a b -> count_unique a <= Z.of_nat (List.length b).
Proof.
  intros H. unfold count_unique. apply inj_le.
  apply NoDup_incl_length; [apply unique_NoDup|].
  intros x Hx. apply H. now apply In_unique.
Qed.

(** Mapping a function over the rows cannot create distinct rows. *)
Lemma count_unique_map (f : list Z -> list Z) (a : list (list Z)) :
  count_unique (map f a) <= count_unique a.
Proof.
  unfold count_unique at 2.
  rewrite <- (length_map f (unique a)).
  apply count_unique_incl.
  intros y Hy. apply in_map_iff in Hy as (x & <- & Hx).
  apply in_map. now apply In_unique.
Qed.

Lemma of_int_Some (z : Z) (x : float64) : of_int z = Some x -> x = of_Z z.
Proof.
  unfold of_int. cbv zeta. destruct (is_finite (of_Z z)); [|discriminate].
  now intros [= <-].
Qed.

Lemma of_int_defined (z : Z) : of_int z <> None -> of_int z = Some (of_Z z).
Proof.
  unfold of_int. cbv zeta. now destruct (is_finite (of_Z z)).
Qed.

(** What [quantize_colors] returns, spelled out. *)
Lemma quantize_colors_eq (image : Image) (N : Z) :
  quantize_colors image N =
  match convert "RGB" image with
  | None => None
  | Some rgb =>
      match of_int N, of_int (N - 1) with
      | Some _, Some _ =>
          let out := map (map (quantize_sample N)) (getdata rgb) in
          let result :=
            if has_alpha image then
              match convert "RGBA" (fromarray (size image) out "RGB") with
              | Some r => putalpha r (last_band image)
              | None => None
              end
            else Some (fromarray (size image) out "RGB") in
          match result with
          | Some r => Some {| img_result := r;
                              original_colors := count_unique (getdata rgb);
                              result_colors := count_unique out |}
          | None => None
          end
      | _, _ => None
      end
  end.
Proof.
  unfold quantize_colors.
  destruct (convert "RGB" image) as [rgb|]; [|reflexivity].
  destruct (of_int N) as [shades|] eqn:E1; [|reflexivity].
  destruct (of_int (N - 1)) as [steps|] eqn:E2; [|reflexivity].
  apply of_int_Some in E1, E2. subst shades steps.
  cbv zeta. rewrite array_passes. reflexivity.
Qed.

(** The same for a run that returns. *)
Lemma quantize_colors_Some (image : Image) (N : Z) (q : Quantized) :
  quantize_colors image N = Some q ->
  exists rgb,
    convert "RGB" image = Some rgb
    /\ let out := map (map (quantize_sample N)) (getdata rgb) in
       (if has_alpha image then
          match convert "RGBA" (fromarray (size image) out "RGB") with
          | Some r => putalpha r (last_band image)
          | None => None
          end
        else Some (fromarray (size image) out "RGB")) = Some (img_result q)
       /\ original_colors q = count_unique (getdata rgb)
       /\ result_colors q = count_unique out.
Proof.
  rewrite quantize_colors_eq.
  destruct (convert "RGB" image) as [rgb|]; [|discriminate].
  destruct (of_int N); [|discriminate].
  destruct (of_int (N - 1)); [|discriminate].
  cbv zeta.
  match goal with
  | |- match ?r with _ => _ end = _ -> _ => destruct r as [i|] eqn:Er
  end; [|discriminate].
  intros [= <-]. exists rgb. split; [reflexivity|]. cbv zeta.
  rewrite Er. repeat split.
Qed.

Lemma convert_length (dst : string) (im r : Image) :
  convert dst im = Some r ->
  mode r = dst /\ size r = size im
  /\ List.length (getdata r) = List.length (getdata im).
Proof.
  unfold convert. cbv zeta.
  destruct (match pixel_converter (mode im) dst with
            | Some f => Some f
            | None => other_converter im dst
            end); [|discriminate].
  intros [= <-]. cbn. now rewrite length_map.
Qed.

Lemma convert_RGB_RGBA (sz : Z * Z) (a : list (list Z)) :
  convert "RGBA" (fromarray sz a "RGB")
  = Some {| mode := "RGBA"; size := sz;
            getdata := map (fun px => px ++ [255]) a |}.
Proof. reflexivity. Qed.

(** The quantizer raises only when the conversion to RGB does or the shade
    count is beyond float64: no shade count is rejected for its value. *)
Lemma quantize_colors_total (image : Image) (N : Z) :
  convert "RGB" image <> None ->
  of_int N <> None -> of_int (N - 1) <> None ->
  exists q, quantize_colors image N = Some q.
Proof.
  intros H H1 H2. rewrite quantize_colors_eq.
  rewrite (of_int_defined _ H1), (of_int_defined _ H2).
  destruct (convert "RGB" image) as [rgb|] eqn:E; [|contradiction].
  apply convert_length in E as (_ & _ & El).
  cbv zeta. destruct (has_alpha image); [|eauto].
  rewrite convert_RGB_RGBA. unfold putalpha, last_band. cbn [getdata].
  rewrite !length_map, <- El, Nat.eqb_refl. eauto.
Qed.

(** A first consequence: the count printed after quantizing is at most the
    count printed before. *)
Lemma uniform_counts (image : Image) (N : Z) (q : Quantized) :
  quantize_colors image N = Some q -> result_colors q <= original_colors q.
Proof.
  intros Hq. apply quantize_colors_Some in Hq as (rgb & _ & _ & -> & ->).
  apply count_unique_map.
Qed.

Lemma last_app_single (l : list Z) (a d : Z) : last (l ++ [a]) d = a.
Proof. apply last_last. Qed.

Lemma reattach_last (l : list (list Z)) :
  forall alpha, List.length alpha = List.length l ->
  map (fun px => last px 0)
    (map (fun pa => firstn 3 (fst pa) ++ [snd pa]) (combine l alpha)) = alpha.
Proof.
  induction l as [|px l IH]; intros [|a alpha] Hl; try discriminate.
  - reflexivity.
  - cbn [combine map fst snd]. rewrite last_app_single. f_equal.
    apply IH. now injection Hl.
Qed.

Lemma firstn3_app (px : list Z) (a : Z) :
  List.length px = 3%nat -> firstn 3 (px ++ [a]) = px.
Proof.
  destruct px as [|a0 [|b [|c [|d px]]]]; try discriminate. reflexivity.
Qed.

Lemma split_last4 (px : list Z) :
  List.length px = 4%nat -> firstn 3 px ++ [last px 0] = px.
Proof.
  destruct px as [|a [|b [|c [|d [|e px]]]]]; try discriminate. reflexivity.
Qed.

Lemma split_nth4 (px : list Z) :
  List.length px = 4%nat -> firstn 3 px ++ [nth 3 px 0] = px.
Proof.
  destruct px as [|a [|b [|c [|d [|e px]]]]]; try discriminate. reflexivity.
Qed.

(** Detaching the alpha band and putting it back, pixel by pixel. *)
Lemma reattach_split (l : list (list Z)) :
  Forall (fun px => List.length px = 4%nat) l ->
  map (fun pa => firstn 3 (fst pa) ++ [snd pa])
    (combine (map (fun px => px ++ [255]) (map (firstn 3) l))
             (map (fun px => last px 0) l)) = l.
Proof.
  induction 1 as [|px l Hpx _ IH]; [reflexivity|].
  cbn [map combine fst snd]. rewrite IH. f_equal.
  rewrite firstn3_app.
  - now apply split_last4.
  - rewrite length_firstn, Hpx. reflexivity.
Qed.

Lemma convert_RGBA_RGB (image : Image) :
  mode image = "RGBA"%string ->
  convert "RGB" image
  = Some {| mode := "RGB"; size := size image;
            getdata := map (firstn 3) (getdata image) |}.
Proof. intros H. unfold convert. rewrite H. reflexivity. Qed.

Lemma has_alpha_RGBA (image : Image) :
  mode image = "RGBA"%string -> has_alpha image = true.
Proof. intros H. unfold has_alpha. rewrite H. reflexivity. Qed.

(** The uniform quantizer on an RGBA image: the result is RGBA, of the
    same size, and its last band is the input's. *)
Lemma uniform_keeps_alpha (image : Image) (N : Z) (q : Quantized) :
  mode image = "RGBA"%string ->
  quantize_colors image N = Some q ->
  mode (img_result q) = "RGBA"%string
  /\ size (img_result q) = size image
  /\ last_band (img_result q) = last_band image.
Proof.
  intros H Hq. apply quantize_colors_Some in Hq as (rgb & Hc & Hr & _).
  rewrite (convert_RGBA_RGB image H) in Hc. injection Hc as <-.
  cbv zeta in Hr. rewrite (has_alpha_RGBA image H), convert_RGB_RGBA in Hr.
  unfold putalpha, last_band in Hr. cbn [getdata mode size] in Hr.
  rewrite !length_map, Nat.eqb_refl in Hr. injection Hr as <-.
  unfold last_band. cbn [mode size getdata].
  split; [reflexivity|]. split; [reflexivity|].
  apply reattach_last. now rewrite !length_map.
Qed.

(** On an RGBA image the quantizer returns for every shade count within
    float64. *)
Lemma uniform_returns_rgba (image : Image) (N : Z) :
  mode image = "RGBA"%string ->
  of_int N <> None -> of_int (N - 1) <> None ->
  exists q, quantize_colors image N = Some q.
Proof.
  intros H. apply quantize_colors_total.
  now rewrite (convert_RGBA_RGB image H).
Qed.

(** Split and merge as [color_quantizer.py] performs them, with nothing in
    between. *)
Lemma split_merge_uniform (image : Image) :
  mode image = "RGBA"%string ->
  Forall (fun px => List.length px = 4%nat) (getdata image) ->
  exists rgb r,
    convert "RGB" image = Some rgb
    /\ convert "RGBA" (fromarray (size image) (getdata rgb) "RGB") = Some r
    /\ putalpha r (last_band image) = Some image.
Proof.
  intros H Hwf. rewrite (convert_RGBA_RGB image H).
  eexists. eexists. split; [reflexivity|]. cbn [getdata].
  rewrite convert_RGB_RGBA. split; [reflexivity|].
  unfold putalpha, last_band. cbn [getdata mode size].
  rewrite !length_map, Nat.eqb_refl, (reattach_split _ Hwf).
  destruct image as [m sz d]. cbn in *. now subst.
Qed.

Lemma shade_one_table :
  forallb (fun v => sf_eqb (div (level 1 v) (of_Z (1 - 1))) S754_nan)
          (zrange 0 255) = true.
Proof. vm_compute. reflexivity. Qed.

End UniformImage.

(** ** Results on the uniform quantizer *)

Section UniformResults.

Context {lib : PIL.Library}.

(** C1 (amended). For a shade count [2 <= N <= 256] and a sample
    [0 <= v <= 254], the uniform quantizer computes a level [k <= N - 1] that
    is the floor of [v * N / 255] (or one below it when the binary64 product
    falls just short of an integral quotient) and returns the integer part
    of [255 * k / (N - 1)]: the fraction is dropped, not rounded, and the
    value lies in [0,255] without any clamp.  The [N] level values are
    strictly increasing, hence distinct, and sample 0 is a fixed point.  An
    image without alpha comes out with this map applied to every sample of
    its RGB form. *)
Theorem uniform_quantizer_levels (N : Z) :
  2 <= N <= 256 ->
  (forall v, 0 <= v <= 254 ->
     exists k, trunc (level N v) = Some k
       /\ 0 <= k <= N - 1
       /\ (k = v * N / 255 \/ (k = v * N / 255 - 1 /\ (v * N) mod 255 = 0))
       /\ quantize_sample N v = 255 * k / (N - 1)
       /\ 0 <= quantize_sample N v <= 255)
  /\ (forall j k, 0 <= j -> j < k -> k <= N - 1 ->
        dequantize N (of_Z j) < dequantize N (of_Z k))
  /\ quantize_sample N 0 = 0
  /\ (forall image q,
        ColorQuantizer.quantize_colors image N = Some q ->
        ColorQuantizer.has_alpha image = false ->
        exists rgb,
          PIL.convert "RGB" image = Some rgb
          /\ PIL.getdata (ColorQuantizer.img_result q)
             = map (map (quantize_sample N)) (PIL.getdata rgb)).
Proof.
  intros HN. split; [|split; [|split]].
  - intros v Hv.
    destruct (level_spec N v HN Hv) as (k & Hl & Ht & Hk & Hex).
    exists k.
    assert (Hq : quantize_sample N v = 255 * k / (N - 1)).
    { rewrite (quantize_sample_level N v k Hl). now apply dequantize_spec. }
    repeat split; try assumption; try lia; rewrite Hq.
    + apply Z.div_pos; lia.
    + apply Z.div_le_upper_bound; nia.
  - intros j k Hj Hjk Hk.
    rewrite !dequantize_spec by lia.
    now apply levels_increasing.
  - destruct (level_spec N 0 HN ltac:(lia)) as (k & Hl & _ & Hk & Hex).
    rewrite (quantize_sample_level N 0 k Hl), dequantize_spec by lia.
    assert (k = 0) as -> by (cbn in Hex; lia).
    reflexivity.
  - intros image q Hq Ha.
    apply quantize_colors_Some in Hq as (rgb & Hc & Hr & _).
    exists rgb. split; [exact Hc|].
    cbv zeta in Hr. rewrite Ha in Hr. now injection Hr as <-.
Qed.

(** C7 (amended). For [2 <= N <= 27] and a value [g] of the N-level grid
    other than the top value 255, quantizing [g] twice gives what quantizing
    it once gives; in particular this holds for the output [g] of a first
    pass on any sample below 255.  Up to 20 shades such a [g] is a fixed
    point, so a second pass changes nothing. *)
Theorem uniform_quantizer_grid_idempotent (N : Z) :
  2 <= N <= 27 ->
  (forall g, on_grid N g -> g <> 255 ->
     quantize_sample N (quantize_sample N g) = quantize_sample N g)
  /\ (forall v, 0 <= v <= 254 -> quantize_sample N v <> 255 ->
        quantize_sample N (quantize_sample N (quantize_sample N v))
        = quantize_sample N (quantize_sample N v))
  /\ (N <= 20 ->
      (forall g, on_grid N g -> g <> 255 -> quantize_sample N g = g)
      /\ (forall v, 0 <= v <= 254 -> quantize_sample N v <> 255 ->
            quantize_sample N (quantize_sample N v) = quantize_sample N v)).
Proof.
  intros HN.
  assert (G : forall g, on_grid N g -> g <> 255 ->
              quantize_sample N (quantize_sample N g) = quantize_sample N g).
  { intros g (k & Hk & ->) Hg.
    pose proof grid_table as T.
    rewrite forallb_forall in T.
    specialize (T N (In_zrange 26 2 N ltac:(lia))).
    unfold grid_row_ok in T.
    rewrite forallb_forall in T.
    specialize (T k (In_zrange (Z.to_nat N) 0 k ltac:(lia))).
    cbv zeta in T.
    apply orb_true_iff in T as [T|T]; apply Z.eqb_eq in T; congruence. }
  split; [exact G|]. split.
  { intros v Hv Hg. apply G; [|exact Hg].
    apply quantize_sample_on_grid; lia. }
  intros H20.
  assert (F : forall g, on_grid N g -> g <> 255 -> quantize_sample N g = g).
  { intros g (k & Hk & ->) Hg.
    pose proof grid_fixed_table as T.
    rewrite forallb_forall in T.
    specialize (T N (In_zrange 19 2 N ltac:(lia))).
    unfold grid_fixed_row_ok in T.
    rewrite forallb_forall in T.
    specialize (T k (In_zrange (Z.to_nat N) 0 k ltac:(lia))).
    cbv zeta in T.
    apply orb_true_iff in T as [T|T]; apply Z.eqb_eq in T; congruence. }
  split; [exact F|].
  intros v Hv Hg. apply F; [|exact Hg].
  apply quantize_sample_on_grid; lia.
Qed.

End UniformResults.

Section UniformSamples.

#[local] Existing Instance Samples.pillow.

Lemma uniform_quantizer_levels_witness :
  2 <= 4 <= 256 /\ quantize_sample 4 0 = 0.
Proof.
  split; [lia | apply (uniform_quantizer_levels 4); lia].
Defined.

(** C1 as stated fails: the cast drops the fraction where the claim rounds
    (N = 3, v = 100: 127.5 becomes 127, not 128); the binary64 product
    155/255 * 51 falls just short of 31, so the level is 30 and the output
    153, not 158; for N = 2 the sample 255 is
    sent to level 2, whose value 510 leaves the byte range and comes back as
    254; beyond 256 shades the levels cannot be distinct bytes; and the
    specification's 2x2 scenario comes out with 254 in place of 255. *)
Lemma uniform_quantizer_counterexample :
  quantize_sample 3 100 = 127 /\ spec_uniform 3 100 = 128
  /\ quantize_sample 51 155 = 153 /\ spec_uniform 51 155 = 158
  /\ quantize_sample 2 255 = 254
  /\ dequantize 257 (of_Z 0) = dequantize 257 (of_Z 1)
  /\ option_map (fun q => PIL.getdata (ColorQuantizer.img_result q))
       (ColorQuantizer.quantize_colors Samples.rgba_2x2 2)
     = Some [[0; 0; 0; 255]; [254; 254; 254; 255];
             [0; 0; 0; 0]; [254; 254; 254; 0]].
Proof. vm_compute. repeat split. Qed.

Lemma uniform_quantizer_grid_idempotent_witness :
  2 <= 4 <= 27
  /\ quantize_sample 4 100 <> 255
  /\ quantize_sample 4 (quantize_sample 4 (quantize_sample 4 100))
     = quantize_sample 4 (quantize_sample 4 100)
  /\ quantize_sample 4 (quantize_sample 4 100) = quantize_sample 4 100.
Proof.
  assert (HN : 2 <= 4 <= 27) by lia.
  assert (Hg : quantize_sample 4 100 <> 255) by (vm_compute; discriminate).
  destruct (uniform_quantizer_grid_idempotent 4 HN) as (_ & H3 & H2).
  split; [exact HN|]. split; [exact Hg|]. split.
  - apply H3; [lia | exact Hg].
  - apply H2; [lia | lia | exact Hg].
Defined.

(** C7 as stated fails: for N = 28 the grid value 18 (level 2) goes to 9 and
    9 goes to 0; for N = 2 the grid value 255 goes to 254 and 254 back to
    255. *)
Lemma uniform_quantizer_idempotence_counterexample :
  ~ (forall N g, 2 <= N -> on_grid N g ->
       quantize_sample N (quantize_sample N g) = quantize_sample N g).
Proof.
  intros H.
  assert (G : on_grid 28 18) by (exists 2; split; [lia | vm_compute; reflexivity]).
  specialize (H 28 18 ltac:(lia) G).
  vm_compute in H. discriminate.
Qed.

End UniformSamples.

(** ** Index arrays *)

Section Indexing.

Import Numpy.
Context {A : Type}.

Lemma index_in_range (a : list A) (l : Z) :
  0 <= l < Z.of_nat (List.length a) -> index a l = nth_error a (Z.to_nat l).
Proof.
  intros H. unfold index.
  destruct (Z.leb_spec 0 l); [|lia].
  destruct (Z.ltb_spec l (Z.of_nat (List.length a))); [|lia].
  reflexivity.
Qed.

Lemma index_In (a : list A) (l : Z) (x : A) : index a l = Some x -> In x a.
Proof.
  unfold index.
  destruct (_ && _); [apply nth_error_In|].
  destruct (_ && _); [apply nth_error_In|discriminate].
Qed.

Lemma take_defined (a : list A) (idx : list Z) :
  Forall (fun l => 0 <= l < Z.of_nat (List.length a)) idx ->
  exists r, take a idx = Some r.
Proof.
  induction 1 as [|l idx Hl _ [r IH]]; cbn [take]; [eauto|].
  rewrite (index_in_range a l Hl), IH.
  destruct (nth_error a (Z.to_nat l)) as [x|] eqn:E; [eauto|].
  apply nth_error_None in E. lia.
Qed.

Lemma take_nth (a : list A) (idx : list Z) :
  forall r, take a idx = Some r ->
  List.length r = List.length idx
  /\ forall i l, nth_error idx i = Some l -> nth_error r i = index a l.
Proof.
  induction idx as [|l0 idx IH]; cbn [take]; intros r.
  - intros [= <-]. split; [reflexivity|]. intros [|i] l; discriminate.
  - destruct (index a l0) as [x|] eqn:E; [|discriminate].
    destruct (take a idx) as [xs|]; [|discriminate].
    intros [= <-]. destruct (IH xs eq_refl) as [Hl Hn].
    split; [cbn; now rewrite Hl|].
    intros [|i] l; cbn [nth_error].
    + now intros [= <-].
    + apply Hn.
Qed.

(** Two lists of one length are related when their entries are, index by
    index. *)
Lemma Forall2_nth {B : Type} (R : A -> B -> Prop) (l : list A) :
  forall l' : list B, List.length l' = List.length l ->
  (forall i x, nth_error l i = Some x ->
     exists y, nth_error l' i = Some y /\ R x y) ->
  Forall2 R l l'.
Proof.
  induction l as [|x l IH]; intros [|y l'] Hl H; try discriminate.
  - constructor.
  - constructor.
    + destruct (H 0%nat x eq_refl) as (y' & [= ->] & Hr). exact Hr.
    + apply IH; [now injection Hl|].
      intros i x' Hx'. exact (H (S i) x' Hx').
Qed.

Lemma take_incl (a : list A) (idx : list Z) (r : list A) :
  take a idx = Some r -> incl r a.
Proof.
  intros H x Hx. apply In_nth_error in Hx as [i Hi].
  destruct (take_nth a idx r H) as [Hl Hn].
  assert (Hlt : (i < List.length idx)%nat).
  { rewrite <- Hl. apply nth_error_Some. now rewrite Hi. }
  destruct (nth_error idx i) as [l|] eqn:E.
  - rewrite (Hn i l E) in Hi. now apply index_In in Hi.
  - apply nth_error_None in E. lia.
Qed.

End Indexing.

(** ** The cluster quantizer *)

Section Cluster.

Import Py Numpy PIL ShaderDown.

Variable KMeans :
  Z -> option Z -> Z -> Entropy -> list (list Z) -> option Fit.

Lemma effective_num_colors_min (D K : Z) :
  effective_num_colors D K = Z.min K D.
Proof. unfold effective_num_colors. destruct (Z.leb_spec D K); lia. Qed.

Lemma count_unique_nonneg (a : list (list Z)) : 0 <= count_unique a.
Proof. unfold count_unique. lia. Qed.

(** Under the shape contract the clustering step returns, and binds the
    library's labels and the cast centres. *)
Lemma cluster_pixels_spec (g : Entropy) (X : list (list Z)) (K : Z) (f : Fit) :
  let k := effective_num_colors (count_unique X) K in
  KMeans k (Some 42) 10 g X = Some f ->
  fit_shape k X f ->
  exists q,
    take (map (map astype_uint8) (snd f)) (fst f) = Some q
    /\ cluster_pixels KMeans g X K
       = Some {| original_color_count := count_unique X;
                 num_colors_used := k;
                 labels := fst f;
                 centers := map (map astype_uint8) (snd f);
                 quantized_pixels := q |}.
Proof.
  intros k Hfit (Hlen & Hlab & Hcen & Hdim).
  destruct (take_defined (map (map astype_uint8) (snd f)) (fst f)) as [q Hq].
  { rewrite length_map, Hcen.
    eapply Forall_impl; [|exact Hlab]. cbn beta. intros l Hl. lia. }
  exists q. split; [exact Hq|].
  unfold cluster_pixels. fold k. rewrite Hfit.
  destruct f as [ls cs]. cbn [fst snd] in *. now rewrite Hq.
Qed.

End Cluster.

(** ** Casting a float64 whose value is known *)

Section Cast.

Lemma two_power_pos (e : Z) : e < 0 -> 0 < Z.shiftl 1 (- e).
Proof.
  intros He. rewrite Z.shiftl_1_l. apply Z.pow_pos_nonneg; lia.
Qed.

(** The value of a finite float64 as a fraction: numerator over a power of
    two. *)
Lemma to_Q_finite (s : bool) (m : positive) (e : Z) :
  let n := if s then Zneg m else Zpos m in
  (to_Q (S754_finite s m e) ==
   if 0 <=? e then inject_Z (n * 2 ^ e) else n # Z.to_pos (2 ^ (- e)))%Q.
Proof.
  cbv zeta. unfold to_Q. destruct (Z.leb_spec 0 e) as [He|He].
  - rewrite Z.shiftl_mul_pow2 by lia. reflexivity.
  - rewrite Z.shiftl_1_l. reflexivity.
Qed.

(** A finite float64 whose value is the non-negative fraction [a / b]
    truncates to the integer quotient. *)
Lemma trunc_of_ratio (x : float64) (a : Z) (b : positive) :
  is_finite x = true -> (to_Q x == a # b)%Q -> 0 <= a ->
  trunc x = Some (a / Zpos b).
Proof.
  destruct x as [s|s| |s m e]; try discriminate; intros _ Hq Ha.
  - cbn in Hq. unfold Qeq in Hq. cbn in Hq.
    assert (a = 0) as -> by lia. reflexivity.
  - rewrite to_Q_finite in Hq. unfold trunc, scale.
    destruct (Z.leb_spec 0 e) as [He|He].
    + unfold Qeq in Hq. cbn [Qnum Qden inject_Z] in Hq.
      assert (Hp : 0 < 2 ^ e) by (apply Z.pow_pos_nonneg; lia).
      rewrite Z.shiftl_mul_pow2 by lia.
      destruct s.
      * exfalso. assert (Zneg m * 2 ^ e < 0) by (apply Z.mul_neg_pos; lia). nia.
      * f_equal. assert (a = Zpos m * 2 ^ e * Zpos b) as -> by lia.
        now rewrite Z.div_mul by lia.
    + assert (Hp : 0 < 2 ^ (- e)) by (apply Z.pow_pos_nonneg; lia).
      unfold Qeq in Hq. cbn [Qnum Qden] in Hq.
      rewrite Z2Pos.id in Hq by lia.
      rewrite Z.shiftr_div_pow2 by lia.
      destruct s.
      * exfalso. assert (Zneg m * Zpos b < 0) by (apply Z.mul_neg_pos; lia). nia.
      * f_equal.
        rewrite <- (Z.div_mul_cancel_r (Zpos m) (2 ^ (- e)) (Zpos b)) by lia.
        rewrite Hq.
        rewrite (Z.mul_comm (2 ^ (- e)) (Zpos b)).
        rewrite Z.div_mul_cancel_r by lia. reflexivity.
Qed.

(** A float64 whose value is a byte casts to that byte. *)
Lemma astype_uint8_exact (x : float64) (z : Z) :
  (to_Q x == inject_Z z)%Q -> 0 <= z <= 255 -> astype_uint8 x = z.
Proof.
  intros Hq Hz. unfold astype_uint8.
  destruct (is_finite x) eqn:Hf.
  - rewrite (trunc_of_ratio x z 1 Hf Hq) by lia.
    rewrite Z.div_1_r. apply Z.mod_small. lia.
  - destruct x as [s|s| |s m e]; try discriminate; cbn in Hq |- *;
      unfold Qeq in Hq; cbn in Hq; lia.
Qed.

(** In the byte range the cast is the floor of the value: the fraction is
    dropped and nothing wraps. *)
Lemma astype_uint8_floor (x : float64) :
  is_finite x = true -> (0 <= to_Q x)%Q -> (to_Q x < inject_Z 256)%Q ->
  astype_uint8 x = Qfloor (to_Q x) /\ 0 <= Qfloor (to_Q x) <= 255.
Proof.
  intros Hf H0 H256.
  destruct (to_Q x) as [a b] eqn:E.
  assert (Ha : 0 <= a) by (unfold Qle in H0; cbn in H0; lia).
  assert (Hb : a < 256 * Zpos b) by (unfold Qlt in H256; cbn in H256; lia).
  assert (Ht : trunc x = Some (a / Zpos b)).
  { apply trunc_of_ratio; [exact Hf | now rewrite E | exact Ha]. }
  assert (Hr : 0 <= a / Zpos b <= 255).
  { split; [apply Z.div_pos; lia|].
    assert (a / Zpos b < 256) by (apply Z.div_lt_upper_bound; lia). lia. }
  cbn [Qfloor]. split; [|exact Hr].
  unfold astype_uint8. rewrite Ht. apply Z.mod_small. lia.
Qed.

(** Truncation of a finite float64, by the sign of its value. *)
Lemma to_Q_opp (m : positive) (e : Z) :
  (to_Q (S754_finite true m e) == - to_Q (S754_finite false m e))%Q.
Proof.
  rewrite !to_Q_finite. destruct (Z.leb_spec 0 e).
  - unfold Qeq. cbn [Qnum Qden inject_Z Qopp]. lia.
  - unfold Qeq. cbn [Qnum Qden Qopp]. lia.
Qed.

Lemma trunc_nonneg (x : float64) :
  is_finite x = true -> (0 <= to_Q x)%Q -> trunc x = Some (Qfloor (to_Q x)).
Proof.
  intros Hf H0. destruct (to_Q x) as [a b] eqn:E.
  assert (Ha : 0 <= a) by (unfold Qle in H0; cbn in H0; lia).
  cbn [Qfloor]. apply trunc_of_ratio; [exact Hf | now rewrite E | exact Ha].
Qed.

Lemma trunc_negative (x : float64) :
  is_finite x = true -> (to_Q x <= 0)%Q ->
  trunc x = Some (- Qfloor (- to_Q x)).
Proof.
  destruct x as [s|s| |s m e]; try discriminate; intros _ H0.
  - reflexivity.
  - destruct s.
    + pose proof (to_Q_opp m e) as Ho.
      set (p := to_Q (S754_finite false m e)) in *.
      set (n := to_Q (S754_finite true m e)) in *.
      assert (Hp : (0 <= p)%Q) by lra.
      pose proof (trunc_nonneg (S754_finite false m e) eq_refl Hp) as Ht.
      fold p in Ht.
      unfold trunc in Ht |- *. injection Ht as Ht. rewrite Ht.
      f_equal. f_equal. apply Qfloor_comp. clearbody p n. lra.
    + (* a positive float64 has a positive value *)
      exfalso. rewrite to_Q_finite in H0. cbv zeta in H0.
      destruct (Z.leb_spec 0 e).
      * assert (0 < 2 ^ e) by (apply Z.pow_pos_nonneg; lia).
        assert (0 < Z.pos m * 2 ^ e) by (apply Z.mul_pos_pos; lia).
        unfold Qle in H0. cbn [Qnum Qden inject_Z] in H0. lia.
      * unfold Qle in H0. cbn [Qnum Qden] in H0. lia.
Qed.

Lemma Qfloor_between (q : Q) (z : Z) :
  (inject_Z z <= q)%Q -> (q < inject_Z z + 1)%Q -> Qfloor q = z.
Proof.
  intros H1 H2.
  pose proof (Qfloor_le q) as F1. pose proof (Qlt_floor q) as F2.
  rewrite inject_Z_plus in F2. change (inject_Z 1) with 1%Q in F2.
  assert (A : (inject_Z (Qfloor q) < inject_Z z + 1)%Q) by lra.
  assert (B : (inject_Z z < inject_Z (Qfloor q) + 1)%Q) by lra.
  change 1%Q with (inject_Z 1) in A, B. rewrite <- inject_Z_plus in A, B.
  rewrite <- Zlt_Qlt in A, B. lia.
Qed.

(** The cast of a finite float64 that lies less than 1 from a byte: that
    byte, or the one below it when the value falls short of it. *)
Lemma cast_near (x : float64) (z : Z) :
  is_finite x = true -> 0 <= z <= 255 ->
  (inject_Z z - 1 < to_Q x)%Q -> (to_Q x < inject_Z z + 1)%Q ->
  trunc x = Some (astype_uint8 x)
  /\ ((inject_Z z <= to_Q x)%Q -> astype_uint8 x = z)
  /\ (astype_uint8 x = z \/ astype_uint8 x = z - 1)
  /\ 0 <= astype_uint8 x <= 255.
Proof.
  intros Hf Hz Hlo Hhi.
  assert (T : exists t, trunc x = Some t
                /\ ((inject_Z z <= to_Q x)%Q -> t = z)
                /\ (t = z \/ t = z - 1) /\ 0 <= t <= 255).
  { destruct (Qlt_le_dec (to_Q x) 0) as [Hneg|Hpos].
    - (* only a value in (-1, 0), next to the byte 0 *)
      assert (Hz0 : z = 0).
      { assert (A : (inject_Z z < inject_Z 1)%Q)
          by (change (inject_Z 1) with 1%Q; lra).
        rewrite <- Zlt_Qlt in A. lia. }
      subst z. change (inject_Z 0) with 0%Q in Hlo, Hhi.
      exists 0. rewrite trunc_negative by (assumption || lra).
      rewrite (Qfloor_between (- to_Q x) 0)
        by (change (inject_Z 0) with 0%Q; lra).
      repeat split; auto; lia.
    - rewrite (trunc_nonneg x Hf Hpos).
      destruct (Qlt_le_dec (to_Q x) (inject_Z z)) as [Hbelow|Habove].
      + exists (z - 1). rewrite (Qfloor_between (to_Q x) (z - 1)).
        * split; [reflexivity|]. split; [intros; lra|]. split; [now right|].
          assert (A : (inject_Z 0 < inject_Z z)%Q)
            by (change (inject_Z 0) with 0%Q; lra).
          rewrite <- Zlt_Qlt in A. lia.
        * unfold Z.sub. rewrite inject_Z_plus.
          change (inject_Z (- (1))) with (- (1))%Q. lra.
        * unfold Z.sub. rewrite inject_Z_plus.
          change (inject_Z (- (1))) with (- (1))%Q. lra.
      + exists z. rewrite (Qfloor_between (to_Q x) z) by lra.
        repeat split; auto; lia. }
  destruct T as (t & Ht & Hex & Hnear & Hr).
  assert (Ha : astype_uint8 x = t).
  { unfold astype_uint8. rewrite Ht. apply Z.mod_small. lia. }
  rewrite Ha. repeat split; try assumption; lia.
Qed.

(** A square below 1 bounds its root by 1. *)
Lemma Qsquare_small (d eps : Q) :
  (d * d <= eps)%Q -> (eps < 1)%Q -> (-1 < d)%Q /\ (d < 1)%Q.
Proof.
  intros H He. split.
  - destruct (Qlt_le_dec (-1) d) as [A|A]; [exact A|]. exfalso.
    assert (B : (1 <= d * d)%Q) by nra. lra.
  - destruct (Qlt_le_dec d 1) as [A|A]; [exact A|]. exfalso.
    assert (B : (1 <= d * d)%Q) by nra. lra.
Qed.

End Cast.

(** ** Within-cluster squared distance *)

Section Inertia.

Import Numpy ShaderDown Samples.

Lemma Qsquare_nonneg (q : Q) : (0 <= q * q)%Q.
Proof. unfold Qle. cbn. nia. Qed.

Lemma sqdist_nonneg (px : list Z) :
  forall centre, (0 <= sqdist px centre)%Q.
Proof.
  unfold sqdist.
  induction px as [|x px IH]; intros [|c centre];
    cbn [map combine fold_right fst snd]; try lra.
  pose proof (Qsquare_nonneg (inject_Z x - c)). specialize (IH centre). lra.
Qed.

Lemma inertia_nonneg (X : list (list Z)) :
  forall labels centres, (0 <= inertia X labels centres)%Q.
Proof.
  unfold inertia.
  induction X as [|x X IH]; intros [|l labels] centres;
    cbn [map combine fold_right fst snd]; try lra.
  pose proof (sqdist_nonneg x (nth (Z.to_nat l) centres [])).
  specialize (IH labels centres). lra.
Qed.

Lemma sqdist_self (px : list Z) : (sqdist px (map inject_Z px) == 0)%Q.
Proof.
  unfold sqdist. induction px as [|x px IH];
    cbn [map combine fold_right fst snd]; [reflexivity|].
  rewrite IH. ring.
Qed.

(** A total within [eps] leaves every sample within [eps] of its centre. *)
Lemma inertia_terms_le (eps : Q) (X : list (list Z)) :
  forall labels centres, (inertia X labels centres <= eps)%Q ->
  forall i x l, nth_error X i = Some x -> nth_error labels i = Some l ->
  (sqdist x (nth (Z.to_nat l) centres []) <= eps)%Q.
Proof.
  unfold inertia.
  induction X as [|x0 X IH]; intros [|l0 labels] centres Hs [|i] x l;
    cbn [nth_error]; try discriminate.
  - intros [= <-] [= <-]. cbn [map combine fold_right fst snd] in Hs.
    pose proof (inertia_nonneg X labels centres) as H. unfold inertia in H.
    lra.
  - cbn [map combine fold_right fst snd] in Hs. apply IH.
    pose proof (sqdist_nonneg x0 (nth (Z.to_nat l0) centres [])). lra.
Qed.

(** A distance below 1 keeps every coordinate of the centre less than 1
    from the sample's. *)
Lemma sqdist_small (eps : Q) (px : list Z) :
  forall centre, List.length px = List.length centre ->
  (sqdist px centre <= eps)%Q -> (eps < 1)%Q ->
  Forall2 (fun x c => (inject_Z x - 1 < c)%Q /\ (c < inject_Z x + 1)%Q)
          px centre.
Proof.
  unfold sqdist.
  induction px as [|x px IH]; intros [|c centre] Hl Hs He; try discriminate.
  - constructor.
  - cbn [map combine fold_right fst snd] in Hs. injection Hl as Hl.
    pose proof (Qsquare_nonneg (inject_Z x - c)) as H1.
    pose proof (sqdist_nonneg px centre) as H2. unfold sqdist in H2.
    constructor.
    + assert (H : ((inject_Z x - c) * (inject_Z x - c) <= eps)%Q) by lra.
      destruct (Qsquare_small _ _ H He). split; lra.
    + apply IH; [exact Hl | lra | exact He].
Qed.

Lemma position_range (x : list Z) (U : list (list Z)) :
  In x U -> 0 <= position x U < Z.of_nat (List.length U).
Proof.
  induction U as [|y U IH]; [contradiction|].
  intros Hin. cbn [position List.length]. destruct (row_eq_dec x y) as [E|E].
  - lia.
  - destruct Hin as [->|Hin]; [contradiction|]. specialize (IH Hin). lia.
Qed.

Lemma nth_position (x : list Z) (U : list (list Z)) (C : list Q) :
  In x U ->
  nth (Z.to_nat (position x U)) (map (map inject_Z) U) C = map inject_Z x.
Proof.
  induction U as [|y U IH]; [contradiction|].
  intros Hin. cbn [position]. destruct (row_eq_dec x y) as [E|E].
  - now subst.
  - destruct Hin as [->|Hin]; [contradiction|].
    pose proof (position_range x U Hin).
    replace (Z.to_nat (1 + position x U)) with (S (Z.to_nat (position x U)))
      by lia.
    cbn [map nth]. now apply IH.
Qed.

(** One cluster per distinct colour costs nothing. *)
Lemma inertia_one_per_colour (U X : list (list Z)) :
  incl X U ->
  (inertia X (map (fun x => position x U) X) (map (map inject_Z) U) == 0)%Q.
Proof.
  unfold inertia. induction X as [|x X IH]; intros Hin; [reflexivity|].
  cbn [map combine fold_right fst snd].
  rewrite nth_position by (apply Hin; now left).
  rewrite sqdist_self, IH; [ring|].
  intros y Hy. apply Hin. now right.
Qed.

End Inertia.

(** ** Palette entries *)

Section Palette.

Import Py Numpy PIL ShaderDown Samples.

Lemma nth_byte (px : list Z) (ch : nat) :
  byte_row px -> 0 <= nth ch px 0 <= 255.
Proof.
  intros H. destruct (Nat.lt_ge_cases ch (List.length px)) as [Hlt|Hge].
  - unfold byte_row in H. rewrite Forall_forall in H. apply H. now apply nth_In.
  - rewrite nth_overflow by exact Hge. lia.
Qed.

Lemma channel_sum_bounds (ch : nat) (rows : list (list Z)) :
  Forall byte_row rows ->
  0 <= channel_sum ch rows <= 255 * Z.of_nat (List.length rows).
Proof.
  unfold channel_sum.
  induction 1 as [|px rows Hpx _ IH]; cbn [map fold_right List.length]; [lia|].
  pose proof (nth_byte px ch Hpx). lia.
Qed.

Lemma members_incl (X : list (list Z)) (labels : list Z) (c : Z) :
  incl (members X labels c) X.
Proof.
  intros x Hx. unfold members in Hx.
  apply in_map_iff in Hx as ([y l] & <- & Hy).
  apply filter_In in Hy as [Hy _]. now apply in_combine_l in Hy.
Qed.

Lemma Zpos_of_nat (n : nat) : n <> 0%nat -> Zpos (Pos.of_nat n) = Z.of_nat n.
Proof.
  destruct n as [|n]; [contradiction|]. intros _.
  rewrite <- Pos.of_nat_succ, Zpos_P_of_succ_nat. lia.
Qed.

(** The cast of a centre that lies less than 1 from a byte pixel in every
    coordinate. *)
Lemma cast_near_row (px : list Z) :
  forall centre,
  Forall2 (fun x c => (inject_Z x - 1 < c)%Q /\ (c < inject_Z x + 1)%Q)
          px (map to_Q centre) ->
  Forall (fun x => is_finite x = true) centre ->
  byte_row px ->
  Forall2 (fun x y => y = x \/ y = x - 1) px (map astype_uint8 centre)
  /\ (Forall integral centre -> map astype_uint8 centre = px).
Proof.
  induction px as [|x px IH]; intros [|c centre] H Hf Hb; inversion H; subst.
  - split; [constructor | reflexivity].
  - inversion Hb; subst. inversion Hf; subst.
    destruct (IH centre) as [IH1 IH2]; try assumption.
    match goal with A : (_ < to_Q c)%Q /\ _ |- _ => destruct A as [Hlo Hhi] end.
    destruct (cast_near c x) as (_ & Hex & Hnear & _); try assumption.
    cbn [map]. split.
    + constructor; assumption.
    + intros Hint. inversion Hint as [|? ? [z Hz] Hint']; subst. f_equal.
      * apply Hex. rewrite Hz in Hlo, Hhi |- *.
        assert (A : (inject_Z x < inject_Z (z + 1))%Q)
          by (rewrite inject_Z_plus; change (inject_Z 1) with 1%Q; lra).
        assert (B : (inject_Z z < inject_Z (x + 1))%Q)
          by (rewrite inject_Z_plus; change (inject_Z 1) with 1%Q; lra).
        rewrite <- Zlt_Qlt in A, B. rewrite <- Zle_Qle. lia.
      * now apply IH2.
Qed.

Lemma mean_bounds (ch : nat) (ms : list (list Z)) :
  ms <> [] -> Forall byte_row ms ->
  (0 <= mean ch ms)%Q /\ (mean ch ms <= inject_Z 255)%Q
  /\ Qfloor (mean ch ms) = channel_sum ch ms / Z.of_nat (List.length ms).
Proof.
  intros Hne Hb. pose proof (channel_sum_bounds ch ms Hb) as Hs.
  assert (Hn : List.length ms <> 0%nat)
    by (destruct ms; [contradiction|discriminate]).
  unfold mean. split; [|split].
  - unfold Qle. cbn [Qnum Qden]. lia.
  - unfold Qle. cbn [Qnum Qden inject_Z]. rewrite (Zpos_of_nat _ Hn). lia.
  - unfold Qfloor. now rewrite (Zpos_of_nat _ Hn).
Qed.

(** The cast of a centre that holds the mean of byte samples within a
    tolerance below 1: the centre with its fraction dropped, a byte at most
    one away from the truncated mean. *)
Lemma cast_near_mean (eps : Q) (x : float64) (ch : nat) (ms : list (list Z)) :
  ms <> [] -> Forall byte_row ms ->
  (0 <= eps)%Q -> (eps < 1)%Q ->
  is_finite x = true ->
  (mean ch ms - eps <= to_Q x)%Q -> (to_Q x <= mean ch ms + eps)%Q ->
  let t := channel_sum ch ms / Z.of_nat (List.length ms) in
  trunc x = Some (astype_uint8 x)
  /\ 0 <= astype_uint8 x <= 255
  /\ t - 1 <= astype_uint8 x <= t + 1
  /\ (mean ch ms - eps - 1 < inject_Z (astype_uint8 x))%Q
  /\ (inject_Z (astype_uint8 x) <= mean ch ms + eps)%Q
  /\ ((to_Q x == mean ch ms)%Q -> astype_uint8 x = t).
Proof.
  intros Hne Hb He0 He1 Hf Hlo Hhi t.
  destruct (mean_bounds ch ms Hne Hb) as (Hm0 & Hm255 & Hfl). fold t in Hfl.
  pose proof (Qfloor_le (mean ch ms)) as F1.
  pose proof (Qlt_floor (mean ch ms)) as F2.
  rewrite Hfl, inject_Z_plus in F2. rewrite Hfl in F1.
  change (inject_Z 1) with 1%Q in F2.
  change (inject_Z 255) with 255%Q in Hm255.
  assert (T : exists y, trunc x = Some y /\ 0 <= y <= 255
                /\ t - 1 <= y <= t + 1
                /\ (mean ch ms - eps - 1 < inject_Z y)%Q
                /\ (inject_Z y <= mean ch ms + eps)%Q
                /\ ((to_Q x == mean ch ms)%Q -> y = t)).
  { destruct (Qlt_le_dec (to_Q x) 0) as [Hneg|Hpos].
    - (* a centre just below zero is cast to 0 *)
      exists 0. rewrite trunc_negative by (assumption || lra).
      rewrite (Qfloor_between (- to_Q x) 0)
        by (change (inject_Z 0) with 0%Q; lra).
      change (inject_Z 0) with 0%Q.
      assert (Ht : t = 0).
      { rewrite <- Hfl. apply Qfloor_between;
          change (inject_Z 0) with 0%Q; lra. }
      repeat split; try reflexivity; try lia; try lra.
    - exists (Qfloor (to_Q x)). rewrite (trunc_nonneg x Hf Hpos).
      pose proof (Qfloor_le (to_Q x)) as G1.
      pose proof (Qlt_floor (to_Q x)) as G2.
      rewrite inject_Z_plus in G2. change (inject_Z 1) with 1%Q in G2.
      set (y := Qfloor (to_Q x)) in *.
      assert (A0 : (inject_Z (-1) < inject_Z y)%Q)
        by (change (inject_Z (-1)) with (- (1))%Q; lra).
      assert (A1 : (inject_Z y < inject_Z 256)%Q)
        by (change (inject_Z 256) with 256%Q; lra).
      assert (A2 : (inject_Z (t - 2) < inject_Z y)%Q).
      { unfold Z.sub. rewrite inject_Z_plus.
        change (inject_Z (- (2))) with (- (2))%Q. lra. }
      assert (A3 : (inject_Z y < inject_Z (t + 2))%Q).
      { rewrite inject_Z_plus. change (inject_Z 2) with 2%Q. lra. }
      rewrite <- Zlt_Qlt in A0, A1, A2, A3.
      repeat split; try reflexivity; try lia; try lra.
      intros E. unfold y. rewrite (Qfloor_comp _ _ E). exact Hfl. }
  destruct T as (y & Ht & Hr & Hnear & Hl & Hu & Hex).
  assert (Ha : astype_uint8 x = y).
  { unfold astype_uint8. rewrite Ht. apply Z.mod_small. lia. }
  rewrite Ha. repeat split; try assumption; lia.
Qed.

Variable KMeans :
  Z -> option Z -> Z -> Entropy -> list (list Z) -> option Fit.

(** When no more colours are present than requested and the clustering is
    a minimiser up to a rounding error below 1, every sample of every pixel
    keeps its value or loses 1; it keeps it when the centres come back as
    whole numbers. *)
Lemma cluster_near_noop (eps : Q) (g : Entropy) (X : list (list Z)) (K : Z)
    (f : Fit) :
  count_unique X <= K ->
  KMeans (count_unique X) (Some 42) 10 g X = Some f ->
  fit_shape (count_unique X) X f ->
  (eps < 1)%Q ->
  minimal_inertia eps (count_unique X) X f ->
  Forall (fun px => List.length px = 3%nat /\ byte_row px) X ->
  exists c, cluster_pixels KMeans g X K = Some c
    /\ Forall2 (Forall2 (fun x y => y = x \/ y = x - 1)) X (quantized_pixels c)
    /\ (Forall (Forall integral) (snd f) -> quantized_pixels c = X).
Proof.
  intros HDK Hfit Hshape He [Hfin Hmin] Hwf.
  assert (Hk : effective_num_colors (count_unique X) K = count_unique X).
  { rewrite effective_num_colors_min. lia. }
  destruct (cluster_pixels_spec KMeans g X K f) as (q & Hq & Hc);
    rewrite ?Hk; try assumption.
  rewrite Hk in Hc. eexists. split; [exact Hc|]. cbn [quantized_pixels].
  destruct Hshape as (Hlen & Hlab & Hcen & Hdim).
  destruct (take_nth _ _ _ Hq) as [Hql Hqn].
  (* the returned assignment costs at most [eps] *)
  assert (Hsmall : (inertia X (fst f) (map (map to_Q) (snd f)) <= eps)%Q).
  { rewrite <- (Qplus_0_l eps).
    rewrite <- (inertia_one_per_colour (unique X) X)
      by (intros x Hx; now apply In_unique).
    apply Hmin.
    - now rewrite length_map.
    - apply Forall_forall. intros l Hl.
      apply in_map_iff in Hl as (x & <- & Hx).
      apply position_range. now apply In_unique.
    - rewrite length_map. unfold count_unique. now rewrite Nat2Z.id.
    - apply Forall_map, Forall_forall. intros u Hu.
      rewrite length_map. apply (proj1 (In_unique X u)) in Hu.
      rewrite Forall_forall in Hwf. exact (proj1 (Hwf u Hu)). }
  (* pixel by pixel *)
  assert (Hpix : forall i x, nth_error X i = Some x ->
            exists centre, nth_error q i = Some (map astype_uint8 centre)
              /\ In centre (snd f)
              /\ Forall2 (fun a y => y = a \/ y = a - 1) x
                         (map astype_uint8 centre)
              /\ (Forall integral centre -> map astype_uint8 centre = x)).
  { intros i x Ex.
    destruct (nth_error (fst f) i) as [l|] eqn:El.
    2:{ apply nth_error_None in El.
        assert (i < List.length X)%nat by (apply nth_error_Some; now rewrite Ex).
        lia. }
    rewrite Forall_forall in Hlab. specialize (Hlab l (nth_error_In _ _ El)).
    destruct (nth_error (snd f) (Z.to_nat l)) as [centre|] eqn:Ec.
    2:{ apply nth_error_None in Ec. lia. }
    exists centre. split.
    { rewrite (Hqn i l El).
      rewrite index_in_range by (rewrite length_map, Hcen; lia).
      apply map_nth_error. exact Ec. }
    split; [now apply nth_error_In in Ec|].
    rewrite Forall_forall in Hwf, Hdim. unfold finite_centres in Hfin.
    rewrite Forall_forall in Hfin.
    destruct (Hwf x (nth_error_In _ _ Ex)) as [Hx3 Hxb].
    pose proof (Hdim centre (nth_error_In _ _ Ec)) as Hc3.
    apply cast_near_row; [|apply Hfin; now apply nth_error_In in Ec|exact Hxb].
    apply sqdist_small with eps; [now rewrite length_map, Hx3, Hc3| |exact He].
    pose proof (inertia_terms_le eps X _ _ Hsmall i x l Ex El) as Ht.
    rewrite (nth_error_nth _ _ _ (map_nth_error (map to_Q) _ _ Ec)) in Ht.
    exact Ht. }
  assert (Hlq : List.length q = List.length X) by lia.
  split.
  - apply Forall2_nth; [exact Hlq|]. intros i x Ex.
    destruct (Hpix i x Ex) as (centre & Hn & _ & H & _).
    eexists. split; [exact Hn | exact H].
  - intros Hint. apply nth_error_ext. intros i.
    destruct (nth_error X i) as [x|] eqn:Ex.
    + destruct (Hpix i x Ex) as (centre & -> & Hin & _ & Hex).
      f_equal. apply Hex.
      rewrite Forall_forall in Hint. now apply Hint.
    + apply nth_error_None in Ex. apply nth_error_None. lia.
Qed.

End Palette.

(** ** Results on the cluster quantizer *)

Section ClusterResults.

Import Py Numpy PIL ShaderDown Samples.

Context {lib : Library}.

Variable KMeans :
  Z -> option Z -> Z -> Entropy -> list (list Z) -> option Fit.

(** C4. Under the shape contract of the clustering step, every output pixel
    is the palette entry found at the label that [fit_predict] returned for
    that pixel, so it is a member of the palette; the labels are used as
    returned. *)
Theorem cluster_output_uses_labels
    (g : Entropy) (X : list (list Z)) (K : Z) (f : Fit) :
  let k := effective_num_colors (count_unique X) K in
  KMeans k (Some 42) 10 g X = Some f ->
  fit_shape k X f ->
  exists c, cluster_pixels KMeans g X K = Some c
    /\ labels c = fst f
    /\ centers c = map (map astype_uint8) (snd f)
    /\ List.length (quantized_pixels c) = List.length X
    /\ forall i l, nth_error (labels c) i = Some l ->
         exists px, nth_error (quantized_pixels c) i = Some px
                 /\ nth_error (centers c) (Z.to_nat l) = Some px
                 /\ In px (centers c).
Proof.
  intros k Hfit Hshape.
  destruct (cluster_pixels_spec KMeans g X K f Hfit Hshape) as (q & Hq & Hc).
  eexists. split; [exact Hc|]. cbn [labels centers quantized_pixels].
  destruct Hshape as (Hlen & Hlab & Hcen & _).
  destruct (take_nth _ _ _ Hq) as [Hql Hqn].
  repeat split; [congruence|].
  intros i l Hl. rewrite (Hqn i l Hl).
  rewrite Forall_forall in Hlab. specialize (Hlab l (nth_error_In _ _ Hl)).
  rewrite index_in_range by (rewrite length_map, Hcen; lia).
  destruct (nth_error (map (map astype_uint8) (snd f)) (Z.to_nat l)) as [px|] eqn:E.
  - exists px. repeat split. now apply nth_error_In in E.
  - apply nth_error_None in E. rewrite length_map, Hcen in E. lia.
Qed.

(** C8. With a clustering step that is reproducible under a fixed seed, the
    result of the quantizer does not depend on the entropy of the run: the
    palette, the assignment, the pixels and the file written are the same. *)
Theorem cluster_quantizer_deterministic :
  seeded_reproducible KMeans ->
  forall (fs : FileSystem) (g g' : Entropy) (image_path : string) (K : Z)
         (output_path : option string),
    (forall X, cluster_pixels KMeans g X K = cluster_pixels KMeans g' X K)
    /\ quantize_colors KMeans fs g image_path K output_path
       = quantize_colors KMeans fs g' image_path K output_path.
Proof.
  intros Hseed fs g g' image_path K output_path.
  assert (H : forall X, cluster_pixels KMeans g X K = cluster_pixels KMeans g' X K).
  { intros X. unfold cluster_pixels. now rewrite (Hseed _ 42 10 g g' X). }
  split; [exact H|].
  unfold quantize_colors.
  destruct (fs image_path) as [img|]; [|reflexivity].
  destruct (String.eqb (mode img) "RGBA").
  - now rewrite H.
  - destruct (convert "RGB" img); [|reflexivity]. now rewrite H.
Qed.

(** C9 (amended). Each channel of a palette entry is the float64 centre
    that the clustering step returned with its fraction dropped: truncated
    towards zero, not rounded.  When the centres hold the per-channel means
    of their members within a tolerance below 1, the entry of a cluster of
    byte samples lies in [0,255], so the cast does not wrap; it is at most 1
    away from the integer quotient of the members' sum by their number, and
    it is that quotient when the centre holds the mean exactly.  Whatever
    the centre holds, a finite value in [0,256) is cast to its floor. *)
Theorem palette_entry_is_truncated_mean
    (eps : Q) (g : Entropy) (X : list (list Z)) (K : Z) (f : Fit) :
  let k := effective_num_colors (count_unique X) K in
  KMeans k (Some 42) 10 g X = Some f ->
  fit_shape k X f ->
  (0 <= eps)%Q -> (eps < 1)%Q ->
  centroids_near_means eps X f ->
  Forall byte_row X ->
  exists c, cluster_pixels KMeans g X K = Some c
    /\ (forall cl entry ch y,
          0 <= cl ->
          nth_error (centers c) (Z.to_nat cl) = Some entry ->
          members X (labels c) cl <> [] ->
          nth_error entry ch = Some y ->
          let ms := members X (labels c) cl in
          let t := channel_sum ch ms / Z.of_nat (List.length ms) in
          0 <= y <= 255
          /\ t - 1 <= y <= t + 1
          /\ (mean ch ms - eps - 1 < inject_Z y)%Q
          /\ (inject_Z y <= mean ch ms + eps)%Q
          /\ exists centre x,
               nth_error (snd f) (Z.to_nat cl) = Some centre
               /\ nth_error centre ch = Some x
               /\ trunc x = Some y
               /\ ((to_Q x == mean ch ms)%Q -> y = t))
    /\ (forall i centre ch x,
          nth_error (snd f) i = Some centre ->
          nth_error centre ch = Some x ->
          is_finite x = true ->
          (0 <= to_Q x)%Q -> (to_Q x < inject_Z 256)%Q ->
          exists entry,
            nth_error (centers c) i = Some entry
            /\ nth_error entry ch = Some (Qfloor (to_Q x))
            /\ 0 <= Qfloor (to_Q x) <= 255).
Proof.
  intros k Hfit Hshape He0 He1 Hmean Hbytes.
  destruct (cluster_pixels_spec KMeans g X K f Hfit Hshape) as (q & Hq & Hc).
  eexists. split; [exact Hc|]. cbn [labels centers].
  split.
  2:{ intros i centre ch x Hi Hx Hf H0 H256.
      destruct (astype_uint8_floor x Hf H0 H256) as [Ha Hr].
      exists (map astype_uint8 centre).
      rewrite (map_nth_error _ _ _ Hi), (map_nth_error _ _ _ Hx), Ha.
      now repeat split. }
  intros cl entry ch y Hcl Hentry Hne Hy.
  set (ms := members X (fst f) cl) in *.
  rewrite nth_error_map in Hentry.
  destruct (nth_error (snd f) (Z.to_nat cl)) as [centre|] eqn:Ec; [|discriminate].
  cbn [option_map] in Hentry. injection Hentry as <-.
  rewrite nth_error_map in Hy.
  destruct (nth_error centre ch) as [x|] eqn:Ex; [|discriminate].
  cbn [option_map] in Hy. injection Hy as <-.
  destruct (Hmean cl centre ch x Ec Hcl Hne Ex) as (Hfin & Hlo & Hhi).
  fold ms in Hlo, Hhi.
  assert (Hb : Forall byte_row ms).
  { apply Forall_forall. intros px Hpx.
    rewrite Forall_forall in Hbytes. apply Hbytes.
    now apply (members_incl X (fst f) cl). }
  destruct (cast_near_mean eps x ch ms Hne Hb He0 He1 Hfin Hlo Hhi)
    as (Ht & Hr & Hnear & Hl & Hu & Hex).
  cbv zeta. repeat split; try apply Hr; try apply Hnear; try assumption.
  exists centre, x. repeat split; assumption.
Qed.

(** C3 (amended). The number of clusters requested from the clustering
    step is [min K D] for [D] distinct input colours, and under the shape
    contract that is the size of the palette.  When [D <= K] and the
    clustering minimises the within-cluster squared distance up to a
    rounding error below 1, every sample of a three-channel byte image keeps
    its value or comes out 1 lower; every pixel is mapped to itself when the
    centres are returned as whole numbers. *)
Theorem effective_palette_size (g : Entropy) (X : list (list Z)) (K : Z) :
  let D := count_unique X in
  effective_num_colors D K = Z.min K D
  /\ forall f,
       KMeans (Z.min K D) (Some 42) 10 g X = Some f ->
       fit_shape (Z.min K D) X f ->
       exists c, cluster_pixels KMeans g X K = Some c
         /\ num_colors_used c = Z.min K D
         /\ List.length (centers c) = Z.to_nat (Z.min K D)
         /\ (D <= K ->
             Forall (fun px => List.length px = 3%nat /\ byte_row px) X ->
             forall eps, (eps < 1)%Q -> minimal_inertia eps D X f ->
             Forall2 (Forall2 (fun x y => y = x \/ y = x - 1))
                     X (quantized_pixels c)
             /\ (Forall (Forall integral) (snd f) ->
                 quantized_pixels c = X)).
Proof.
  intros D. split; [apply effective_num_colors_min|].
  intros f Hfit Hshape.
  pose proof (effective_num_colors_min D K) as Hk. fold D in Hk.
  destruct (cluster_pixels_spec KMeans g X K f) as (q & Hq & Hc);
    fold D; rewrite ?Hk; try assumption.
  fold D in Hc. rewrite Hk in Hc.
  eexists. split; [exact Hc|]. cbn [num_colors_used centers quantized_pixels].
  split; [reflexivity|]. split.
  { rewrite length_map. apply Hshape. }
  intros HDK Hwf eps He Hmin.
  assert (Hm : Z.min K D = D) by lia. rewrite Hm in Hfit, Hshape.
  destruct (cluster_near_noop KMeans eps g X K f HDK Hfit Hshape He Hmin Hwf)
    as (c' & Hc' & Hnear & Hex).
  rewrite Hc in Hc'. injection Hc' as <-. split; assumption.
Qed.

End ClusterResults.

(** ** Alpha, colour counts and modes across both scripts *)

Section BothQuantizers.

Import Py Numpy PIL Samples.

Context {lib : Library}.

Variable KMeans :
  Z -> option Z -> Z -> ShaderDown.Entropy -> list (list Z)
  -> option ShaderDown.Fit.

Lemma nth3_last (l : list (list Z)) :
  Forall (fun px => List.length px = 4%nat) l ->
  map (fun px => nth 3 px 0) l = map (fun px => last px 0) l.
Proof.
  induction 1 as [|px l Hpx _ IH]; [reflexivity|].
  cbn [map]. rewrite IH. f_equal.
  destruct px as [|a [|b [|c [|d [|e px]]]]]; try discriminate. reflexivity.
Qed.

Lemma firstn3_nth3 (l : list (list Z)) :
  Forall (fun px => List.length px = 4%nat) l ->
  map (fun qa => fst qa ++ [snd qa])
    (combine (map (firstn 3) l) (map (fun px => nth 3 px 0) l)) = l.
Proof.
  induction 1 as [|px l Hpx _ IH]; [reflexivity|].
  cbn [map combine fst snd]. rewrite IH. f_equal. now apply split_nth4.
Qed.

Lemma rows_of_three (l : list (list Z)) :
  Forall (fun q => List.length q = 3%nat) l ->
  forallb (fun q => (List.length q =? 3)%nat) l = true.
Proof.
  intros H. apply forallb_forall. intros q Hq.
  rewrite Forall_forall in H. apply Nat.eqb_eq. now apply H.
Qed.

Lemma append_last (l : list (list Z)) :
  forall alpha, List.length alpha = List.length l ->
  map (fun px => last px 0)
    (map (fun qa => fst qa ++ [snd qa]) (combine l alpha)) = alpha.
Proof.
  induction l as [|q l IH]; intros [|a alpha] Hl; try discriminate.
  - reflexivity.
  - cbn [combine map fst snd]. rewrite last_app_single. f_equal.
    apply IH. now injection Hl.
Qed.

(** Split and merge as [shader_down.py] performs them, with nothing in
    between. *)
Lemma split_merge_cluster (img : Image) :
  mode img = "RGBA"%string -> rgba_pixels img ->
  ShaderDown.assemble img "RGBA" (map (firstn 3) (getdata img)) = Some img.
Proof.
  intros Hm Hwf. unfold ShaderDown.assemble.
  rewrite length_map, Nat.eqb_refl, rows_of_three.
  2:{ rewrite Forall_map. eapply Forall_impl; [|exact Hwf].
      cbn beta. intros px Hpx. rewrite length_firstn, Hpx. reflexivity. }
  cbn [andb String.eqb Ascii.eqb Bool.eqb].
  rewrite (firstn3_nth3 _ Hwf).
  destruct img as [m sz d]. cbn in *. now subst.
Qed.

(** A run that returns a path has written the image it was saving there. *)
Lemma save_and_return_Done (fs fs' : FileSystem) (im : Image)
    (out : string) (r : option string) :
  ShaderDown.save_and_return fs im out = Done (fs', r) ->
  fs' = write fs im out /\ r = Some out.
Proof.
  unfold ShaderDown.save_and_return.
  destruct (save fs im out) as [fs1|] eqn:E; [|discriminate].
  intros [= <- <-]. split; [|reflexivity].
  unfold save in E. destruct (save_raises fs im out); [discriminate|].
  now injection E.
Qed.

Lemma write_at (fs : FileSystem) (im : Image) (out : string) :
  write fs im out out = Some im.
Proof. unfold write. now rewrite String.eqb_refl. Qed.

(** The cluster quantizer on an RGBA file: the image handed to [save] is
    RGBA and its last band is the input's. *)
Lemma cluster_keeps_alpha (fs : FileSystem) (g : ShaderDown.Entropy)
    (image_path : string) (K : Z) (output_path : option string)
    (img : Image) (f : ShaderDown.Fit) :
  let X := map (firstn 3) (getdata img) in
  let k := ShaderDown.effective_num_colors (count_unique X) K in
  fs image_path = Some img ->
  mode img = "RGBA"%string -> rgba_pixels img ->
  KMeans k (Some 42) 10 g X = Some f ->
  ShaderDown.fit_shape k X f ->
  exists result out,
    ShaderDown.quantize_colors KMeans fs g image_path K output_path
    = ShaderDown.save_and_return fs result out
    /\ mode result = "RGBA"%string
    /\ size result = size img
    /\ last_band result = last_band img.
Proof.
  intros X k Hfs Hm Hwf Hfit Hshape.
  destruct (cluster_pixels_spec KMeans g X K f Hfit Hshape) as (q & Hq & Hc).
  destruct (take_nth _ _ _ Hq) as [Hql _].
  assert (Hlen : List.length q = List.length (getdata img)).
  { rewrite Hql. destruct Hshape as (-> & _). unfold X. apply length_map. }
  unfold ShaderDown.quantize_colors. rewrite Hfs, Hm.
  cbn [String.eqb Ascii.eqb Bool.eqb]. fold X. rewrite Hc.
  cbn [ShaderDown.quantized_pixels ShaderDown.num_colors_used].
  unfold ShaderDown.assemble. rewrite Hlen, Nat.eqb_refl, rows_of_three.
  2:{ apply Forall_forall. intros r Hr.
      apply (take_incl _ _ _ Hq) in Hr.
      apply in_map_iff in Hr as (centre & <- & Hcentre).
      destruct Hshape as (_ & _ & _ & Hdim). rewrite Forall_forall in Hdim.
      rewrite length_map. now apply Hdim. }
  cbn [andb String.eqb Ascii.eqb Bool.eqb].
  eexists. eexists. split; [reflexivity|].
  unfold fromarray, last_band. cbn [mode size getdata].
  repeat split.
  rewrite append_last by (now rewrite length_map).
  now apply nth3_last.
Qed.

(** C5. For an RGBA input, the last band of the image that either quantizer
    produces is the input's alpha band, sample for sample: the uniform
    quantizer returns such an image whenever it returns, which it does for
    every shade count within float64; the cluster quantizer hands such an
    image to [save], so that a run that returns has written it.  In both
    scripts splitting off the alpha band and merging it back with nothing in
    between gives the original image. *)
Theorem alpha_channel_preserved :
  (forall image N,
     mode image = "RGBA"%string ->
     (forall q, ColorQuantizer.quantize_colors image N = Some q ->
        mode (ColorQuantizer.img_result q) = "RGBA"%string
        /\ size (ColorQuantizer.img_result q) = size image
        /\ last_band (ColorQuantizer.img_result q) = last_band image)
     /\ (of_int N <> None -> of_int (N - 1) <> None ->
         exists q, ColorQuantizer.quantize_colors image N = Some q))
  /\ (forall fs g image_path K output_path img f,
        let X := map (firstn 3) (getdata img) in
        let k := ShaderDown.effective_num_colors (count_unique X) K in
        fs image_path = Some img ->
        mode img = "RGBA"%string -> rgba_pixels img ->
        KMeans k (Some 42) 10 g X = Some f ->
        ShaderDown.fit_shape k X f ->
        exists result out,
          ShaderDown.quantize_colors KMeans fs g image_path K output_path
          = ShaderDown.save_and_return fs result out
          /\ mode result = "RGBA"%string
          /\ size result = size img
          /\ last_band result = last_band img
          /\ forall fs' o,
               ShaderDown.quantize_colors KMeans fs g image_path K output_path
               = Done (fs', o) ->
               o = Some out /\ fs' out = Some result)
  /\ (forall image,
        mode image = "RGBA"%string -> rgba_pixels image ->
        (exists rgb r,
           convert "RGB" image = Some rgb
           /\ convert "RGBA" (fromarray (size image) (getdata rgb) "RGB") = Some r
           /\ putalpha r (last_band image) = Some image)
        /\ ShaderDown.assemble image "RGBA" (map (firstn 3) (getdata image))
           = Some image).
Proof.
  split; [|split].
  - intros image N Hm. split.
    + intros q. now apply uniform_keeps_alpha.
    + now apply uniform_returns_rgba.
  - intros fs g image_path K output_path img f X k Hfs Hm Hwf Hfit Hshape.
    destruct (cluster_keeps_alpha fs g image_path K output_path img f
                Hfs Hm Hwf Hfit Hshape) as (result & out & Hq & H1 & H2 & H3).
    exists result, out. repeat split; try assumption.
    + rewrite Hq in H. now apply save_and_return_Done in H.
    + rewrite Hq in H. apply save_and_return_Done in H as [-> _].
      apply write_at.
  - intros image Hm Hwf. split.
    + now apply split_merge_uniform.
    + now apply split_merge_cluster.
Qed.

(** C6 (amended). Neither quantizer increases the number of distinct
    colours; after the cluster quantizer, asked for at least one colour, the
    number stays the same only if the requested count is at least the
    original number of distinct colours. *)
Theorem color_count_never_grows :
  (forall image N q,
     ColorQuantizer.quantize_colors image N = Some q ->
     ColorQuantizer.result_colors q <= ColorQuantizer.original_colors q)
  /\ (forall g X K f,
        let k := ShaderDown.effective_num_colors (count_unique X) K in
        1 <= K ->
        KMeans k (Some 42) 10 g X = Some f ->
        ShaderDown.fit_shape k X f ->
        exists c, ShaderDown.cluster_pixels KMeans g X K = Some c
          /\ ShaderDown.original_color_count c = count_unique X
          /\ count_unique (ShaderDown.quantized_pixels c) <= count_unique X
          /\ (count_unique (ShaderDown.quantized_pixels c) = count_unique X ->
              count_unique X <= K)).
Proof.
  split; [apply uniform_counts|].
  intros g X K f k HK Hfit Hshape.
  destruct (cluster_pixels_spec KMeans g X K f Hfit Hshape) as (q & Hq & Hc).
  eexists. split; [exact Hc|].
  cbn [ShaderDown.original_color_count ShaderDown.quantized_pixels].
  split; [reflexivity|].
  pose proof (count_unique_incl q _ (take_incl _ _ _ Hq)) as Hle.
  rewrite length_map in Hle. destruct Hshape as (_ & _ & Hcen & _).
  rewrite Hcen in Hle.
  pose proof (effective_num_colors_min (count_unique X) K) as Hk. fold k in Hk.
  pose proof (count_unique_nonneg X).
  split; lia.
Qed.

End BothQuantizers.

(** ** Shade count 1 and image modes in [color_quantizer.py] *)

Section UniformPipeline.

Import Py Numpy PIL ColorQuantizer Samples.

Context {lib : Library}.

(** C2 (amended). With shade count 1 nothing is rejected: the division by
    [N - 1 = 0] gives NaN for the samples below 255 and plus infinity for
    255, the quantizer returns an image whenever the conversion to RGB does,
    and [main] hands that image to [save_image]: the run ends as the save
    ends, and the output file is written whenever the library can write
    it. *)
Theorem shade_count_one_is_not_rejected :
  (forall v, 0 <= v <= 254 -> div (level 1 v) (of_Z (1 - 1)) = S754_nan)
  /\ div (level 1 255) (of_Z (1 - 1)) = S754_infinity false
  /\ (forall fs path out image,
        load_image fs path = Some image ->
        convert "RGB" image <> None ->
        exists q, quantize_colors image 1 = Some q
          /\ main fs {| image_path := path; colors := 1; output := Some out |}
             = save_image fs (img_result q) out
          /\ (save_raises fs (img_result q) out = false ->
              main fs {| image_path := path; colors := 1; output := Some out |}
              = Done (write fs (img_result q) out))).
Proof.
  split; [|split].
  - intros v Hv. pose proof shade_one_table as T.
    rewrite forallb_forall in T.
    specialize (T v (In_zrange 255 0 v ltac:(lia))).
    now apply sf_eqb_eq in T.
  - vm_compute. reflexivity.
  - intros fs path out image Hload Hconv.
    destruct (quantize_colors_total image 1 Hconv) as [q Hq];
      [discriminate | discriminate |].
    exists q. split; [exact Hq|].
    assert (Hmain : main fs {| image_path := path; colors := 1;
                               output := Some out |}
                    = save_image fs (img_result q) out).
    { unfold main. cbn [image_path colors output]. now rewrite Hload, Hq. }
    split; [exact Hmain|].
    intros Hs. rewrite Hmain. unfold save_image, save. now rewrite Hs.
Qed.

Lemma quantized_rgba_pixels (l : list (list Z)) :
  Forall (fun x => List.length x = 3%nat) l ->
  forall alpha,
  Forall (fun px => List.length px = 4%nat)
    (map (fun pa => firstn 3 (fst pa) ++ [snd pa])
       (combine (map (fun px => px ++ [255]) l) alpha)).
Proof.
  induction 1 as [|x l Hx _ IH]; intros [|a alpha]; cbn [map combine];
    try constructor.
  - cbn [fst snd]. rewrite firstn3_app by exact Hx.
    rewrite length_app, Hx. reflexivity.
  - apply IH.
Qed.

Lemma load_image_png (fs : FileSystem) (path : string) (image : Image) :
  endswith (lower path) ".png" = true ->
  load_image fs path = Some image -> mode image = "RGBA"%string.
Proof.
  intros Hpng. unfold load_image. rewrite Hpng.
  destruct (fs path) as [raw|]; [|discriminate].
  intros H. now apply convert_length in H.
Qed.

Lemma quantize_colors_mode (image : Image) (N : Z) (q : Quantized) :
  quantize_colors image N = Some q ->
  mode (img_result q) = if has_alpha image then "RGBA"%string else "RGB"%string.
Proof.
  intros Hq. apply quantize_colors_Some in Hq as (rgb & _ & Hr & _).
  cbv zeta in Hr. destruct (has_alpha image).
  - rewrite convert_RGB_RGBA in Hr. unfold putalpha in Hr.
    cbn [getdata mode size] in Hr.
    destruct (_ =? _)%nat; [|discriminate]. now injection Hr as <-.
  - now injection Hr as <-.
Qed.

(** The alpha branch of [quantize_colors], whatever sent the image there:
    the result is RGBA, four samples per pixel, with the last band of the
    input for its alpha. *)
Lemma alpha_branch (image rgb : Image) (N : Z) :
  has_alpha image = true ->
  convert "RGB" image = Some rgb ->
  of_int N <> None -> of_int (N - 1) <> None ->
  exists q, quantize_colors image N = Some q
    /\ mode (img_result q) = "RGBA"%string
    /\ size (img_result q) = size image
    /\ last_band (img_result q) = last_band image
    /\ (Forall (fun px => List.length px = 3%nat) (getdata rgb) ->
        Forall (fun px => List.length px = 4%nat) (getdata (img_result q))).
Proof.
  intros Ha Hc H1 H2.
  pose proof (convert_length _ _ _ Hc) as (_ & _ & Hl).
  rewrite quantize_colors_eq, Hc.
  rewrite (of_int_defined _ H1), (of_int_defined _ H2).
  cbv zeta. rewrite Ha, convert_RGB_RGBA.
  unfold putalpha, last_band. cbn [getdata mode size].
  rewrite !length_map, Hl, Nat.eqb_refl.
  eexists. split; [reflexivity|]. cbn [img_result mode size getdata].
  split; [reflexivity|]. split; [reflexivity|]. split.
  - apply reattach_last. now rewrite !length_map.
  - intros Hwf. apply quantized_rgba_pixels.
    rewrite Forall_map. eapply Forall_impl; [|exact Hwf].
    cbn beta. intros px Hpx. now rewrite length_map.
Qed.

(** C10 (the code on a LAB image). Among Pillow's modes LAB has no alpha
    band, yet its name holds the letter A: the test ['A' in image.mode]
    sends a LAB image down the alpha branch.  Whenever its conversion to RGB
    succeeds, what comes out is a four-channel RGBA image whose alpha band is
    the input's last band, its b channel, and not a three-channel RGB
    image. *)
Theorem lab_image_takes_alpha_branch (image rgb : Image) (N : Z) :
  mode image = "LAB"%string ->
  convert "RGB" image = Some rgb ->
  of_int N <> None -> of_int (N - 1) <> None ->
  In ("LAB"%string, false) modes
  /\ has_alpha image = true
  /\ exists q, quantize_colors image N = Some q
       /\ mode (img_result q) = "RGBA"%string
       /\ mode (img_result q) <> "RGB"%string
       /\ last_band (img_result q) = last_band image
       /\ (Forall (fun px => List.length px = 3%nat) (getdata rgb) ->
           Forall (fun px => List.length px = 4%nat)
                  (getdata (img_result q))).
Proof.
  intros Hm Hc H1 H2.
  split; [cbn; tauto|].
  assert (Ha : has_alpha image = true).
  { unfold has_alpha. rewrite Hm. reflexivity. }
  split; [exact Ha|].
  destruct (alpha_branch image rgb N Ha Hc H1 H2) as (q & Hq & Hmq & _ & Hl & Hw).
  exists q. split; [exact Hq|]. split; [exact Hmq|].
  split; [rewrite Hmq; discriminate|]. split; assumption.
Qed.

(** X16. A path that ends in [.png], whatever its case, is loaded as RGBA
    and quantized to an RGBA image: a three-channel PNG comes out with four
    channels.  Any other path is loaded in its native mode, and an image
    whose mode name holds no letter A is quantized to an RGB image. *)
Theorem png_is_loaded_as_rgba :
  (forall fs path image,
     endswith (lower path) ".png" = true ->
     load_image fs path = Some image ->
     mode image = "RGBA"%string
     /\ forall N q, quantize_colors image N = Some q ->
                    mode (img_result q) = "RGBA"%string)
  /\ (forall fs path raw N,
        endswith (lower path) ".png" = true ->
        fs path = Some raw ->
        mode raw = "RGB"%string ->
        Forall (fun px => List.length px = 3%nat) (getdata raw) ->
        of_int N <> None -> of_int (N - 1) <> None ->
        exists image q,
          load_image fs path = Some image
          /\ quantize_colors image N = Some q
          /\ mode (img_result q) = "RGBA"%string
          /\ Forall (fun px => List.length px = 4%nat) (getdata (img_result q)))
  /\ (forall fs path raw,
        endswith (lower path) ".png" = false ->
        fs path = Some raw -> load_image fs path = Some raw)
  /\ (forall image N q,
        has_alpha image = false ->
        quantize_colors image N = Some q ->
        mode (img_result q) = "RGB"%string)
  /\ (forall image N,
        mode image = "RGB"%string ->
        Forall (fun px => List.length px = 3%nat) (getdata image) ->
        of_int N <> None -> of_int (N - 1) <> None ->
        exists q, quantize_colors image N = Some q
          /\ mode (img_result q) = "RGB"%string
          /\ Forall (fun px => List.length px = 3%nat) (getdata (img_result q))).
Proof.
  repeat apply conj.
  - intros fs path image Hpng Hload.
    pose proof (load_image_png fs path image Hpng Hload) as Hm.
    split; [exact Hm|]. intros N q Hq.
    rewrite (quantize_colors_mode image N q Hq).
    now rewrite (has_alpha_RGBA image Hm).
  - intros fs path raw N Hpng Hfs Hm Hwf H1 H2.
    unfold load_image. rewrite Hfs, Hpng. unfold convert at 1. rewrite Hm.
    cbn [pixel_converter String.eqb Ascii.eqb Bool.eqb andb].
    eexists.
    destruct (alpha_branch
                {| mode := "RGBA"; size := size raw;
                   getdata := map (fun px => px ++ [255]) (getdata raw) |}
                {| mode := "RGB"; size := size raw;
                   getdata := map (firstn 3)
                                (map (fun px => px ++ [255]) (getdata raw)) |}
                N eq_refl eq_refl H1 H2) as (q & Hq & Hmq & _ & _ & Hw).
    exists q. split; [reflexivity|]. split; [exact Hq|]. split; [exact Hmq|].
    apply Hw. cbn [getdata].
    rewrite !Forall_map. eapply Forall_impl; [|exact Hwf].
    cbn beta. intros px Hpx. rewrite firstn3_app; assumption.
  - intros fs path raw Hpng Hfs. unfold load_image. now rewrite Hfs, Hpng.
  - intros image N q Ha Hq.
    rewrite (quantize_colors_mode image N q Hq). now rewrite Ha.
  - intros image N Hm Hwf H1 H2.
    rewrite quantize_colors_eq.
    rewrite (of_int_defined _ H1), (of_int_defined _ H2).
    unfold convert. rewrite Hm.
    cbn [pixel_converter String.eqb Ascii.eqb Bool.eqb andb].
    cbv zeta. unfold has_alpha. rewrite Hm.
    cbn [getdata]. rewrite map_id.
    eexists. split; [reflexivity|]. cbn [img_result fromarray mode getdata].
    split; [reflexivity|].
    rewrite Forall_map. eapply Forall_impl; [|exact Hwf].
    cbn beta. intros px Hpx. now rewrite length_map.
Qed.

End UniformPipeline.

(** ** The theorems at work on the sample data *)

Section Instances.

Import Py Numpy PIL Samples.
Import ShaderDown.

#[local] Existing Instance pillow.

Lemma three_fit_shape : fit_shape 3 (getdata rgb_three) three_fit.
Proof.
  unfold fit_shape, three_fit. cbn [fst snd getdata rgb_three map List.length].
  repeat split; repeat constructor; lia.
Qed.

Lemma mixed_fit_shape :
  fit_shape 3 (map (firstn 3) (getdata rgba_mixed)) mixed_fit.
Proof.
  unfold fit_shape, mixed_fit.
  cbn [fst snd getdata rgba_mixed map List.length firstn].
  repeat split; repeat constructor; lia.
Qed.

Lemma pair_fit_shape : fit_shape 1 (getdata rgb_pair) pair_fit.
Proof.
  unfold fit_shape, pair_fit. cbn [fst snd getdata rgb_pair map List.length].
  repeat split; repeat constructor; lia.
Qed.

Lemma drift_fit_shape : fit_shape 2 (getdata rgb_drift) drift_fit.
Proof.
  unfold fit_shape, drift_fit. cbn [fst snd getdata rgb_drift map List.length].
  repeat split; repeat constructor; lia.
Qed.

Lemma drift_fit_returned :
  centred_fit 2 (Some 42) 10 0 (getdata rgb_drift) = Some drift_fit.
Proof. vm_compute. reflexivity. Qed.

(** A fit whose total is within [eps] of zero is minimal up to [eps]. *)
Lemma small_inertia_minimal (eps : Q) (n : Z) (X : list (list Z)) (f : Fit) :
  finite_centres f ->
  (inertia X (fst f) (map (map to_Q) (snd f)) <= eps)%Q ->
  minimal_inertia eps n X f.
Proof.
  intros Hf Hs. split; [exact Hf|].
  intros labels' centres' _ _ _ _.
  pose proof (inertia_nonneg X labels' centres'). lra.
Qed.

Lemma three_fit_minimal : minimal_inertia 0 3 (getdata rgb_three) three_fit.
Proof.
  apply small_inertia_minimal.
  - repeat constructor.
  - vm_compute. discriminate.
Qed.

Lemma three_fit_integral : Forall (Forall integral) (snd three_fit).
Proof.
  unfold three_fit. cbn [snd getdata rgb_three map].
  repeat constructor;
    match goal with
    | |- integral (of_Z ?z) => exists z; vm_compute; reflexivity
    end.
Qed.

Lemma drift_fit_minimal :
  minimal_inertia (1 # 1000000) 2 (getdata rgb_drift) drift_fit.
Proof.
  apply small_inertia_minimal.
  - repeat constructor.
  - vm_compute. discriminate.
Qed.

Lemma only_cluster (A : Type) (l : list A) (c : Z) (x : A) :
  nth_error l (Z.to_nat c) = Some x -> 0 <= c ->
  c < Z.of_nat (List.length l).
Proof.
  intros H Hc.
  assert (Z.to_nat c < List.length l)%nat
    by (apply nth_error_Some; now rewrite H).
  lia.
Qed.

Lemma pair_fit_means : centroids_near_means 0 (getdata rgb_pair) pair_fit.
Proof.
  intros c centre ch x Hc Hc0 _ Hx.
  pose proof (only_cluster _ _ _ _ Hc Hc0) as Hlt. cbn in Hlt.
  assert (c = 0) as -> by lia.
  cbn in Hc. injection Hc as <-.
  destruct ch as [|[|[|ch]]]; cbn [nth_error map] in Hx;
    try (injection Hx as <-; repeat split; vm_compute;
         first [reflexivity | discriminate]).
  destruct ch; discriminate.
Qed.

Lemma drift_fit_means :
  centroids_near_means (1 # 1000000) (getdata rgb_drift) drift_fit.
Proof.
  intros c centre ch x Hc Hc0 _ Hx.
  pose proof (only_cluster _ _ _ _ Hc Hc0) as Hlt. cbn in Hlt.
  assert (Hcases : c = 0 \/ c = 1) by lia.
  destruct Hcases as [-> | ->]; cbn in Hc; injection Hc as <-;
    (destruct ch as [|[|[|ch]]]; cbn [nth_error] in Hx;
     [injection Hx as <-; repeat split; vm_compute;
      first [reflexivity | discriminate] ..
     | destruct ch; discriminate]).
Qed.

Lemma simple_fit_seeded : seeded_reproducible simple_fit.
Proof. intros n_clusters seed n_init g g' X. reflexivity. Qed.

Lemma cluster_output_uses_labels_witness :
  fit_shape 3 (getdata rgb_three) three_fit
  /\ exists c, cluster_pixels simple_fit 0 (getdata rgb_three) 10 = Some c
       /\ labels c = fst three_fit.
Proof.
  split; [exact three_fit_shape|].
  destruct (cluster_output_uses_labels simple_fit 0 (getdata rgb_three) 10
              three_fit eq_refl three_fit_shape) as (c & Hc & Hl & _).
  exists c. split; assumption.
Defined.

Lemma cluster_quantizer_deterministic_witness :
  seeded_reproducible simple_fit
  /\ quantize_colors simple_fit files 0 "mixed.png" 8 None
     = quantize_colors simple_fit files 1 "mixed.png" 8 None.
Proof.
  split; [exact simple_fit_seeded|].
  apply (cluster_quantizer_deterministic simple_fit simple_fit_seeded).
Defined.

Lemma palette_entry_is_truncated_mean_witness :
  centroids_near_means 0 (getdata rgb_pair) pair_fit
  /\ Forall byte_row (getdata rgb_pair)
  /\ exists c, cluster_pixels simple_fit 0 (getdata rgb_pair) 1 = Some c
       /\ forall y, nth_error (centers c) 0 = Some [y; 20; 30] ->
                    y = 21 / 2 /\ 0 <= y <= 255.
Proof.
  assert (Hb : Forall byte_row (getdata rgb_pair)).
  { repeat constructor; lia. }
  split; [exact pair_fit_means|]. split; [exact Hb|].
  destruct (palette_entry_is_truncated_mean simple_fit 0 0 (getdata rgb_pair) 1
              pair_fit eq_refl pair_fit_shape ltac:(lra) ltac:(lra)
              pair_fit_means Hb)
    as (c & Hc & Hmean & _).
  exists c. split; [exact Hc|].
  intros y Hy.
  assert (Hl : labels c = [0; 0]).
  { vm_compute in Hc. now injection Hc as <-. }
  destruct (Hmean 0 [y; 20; 30] 0%nat y ltac:(lia) Hy)
    as (Hr & _ & _ & _ & centre & x & Hcentre & Hx & _ & Hex).
  - rewrite Hl. discriminate.
  - reflexivity.
  - split; [|exact Hr].
    rewrite Hl in Hex. cbn in Hcentre. injection Hcentre as <-.
    cbn in Hx. injection Hx as <-.
    apply Hex. vm_compute. reflexivity.
Defined.

(** C9 as stated fails: scikit-learn subtracts the overall mean of the
    samples before it clusters and adds it back to the centres it found.  On
    five pixels (21,19,165) and two pixels (21,115,165) the first cluster
    has the mean 19 in its second channel, the centre comes back as the
    float64 just below 19, and the palette entry is 18. *)
Lemma palette_entry_counterexample :
  fit_shape 2 (getdata rgb_drift) drift_fit
  /\ centroids_near_means (1 # 1000000) (getdata rgb_drift) drift_fit
  /\ exists c,
       cluster_pixels centred_fit 0 (getdata rgb_drift) 2 = Some c
       /\ members (getdata rgb_drift) (labels c) 0
          = [[21; 19; 165]; [21; 19; 165]; [21; 19; 165];
             [21; 19; 165]; [21; 19; 165]]
       /\ mean 1 (members (getdata rgb_drift) (labels c) 0) = (95 # 5)%Q
       /\ Qfloor (mean 1 (members (getdata rgb_drift) (labels c) 0)) = 19
       /\ nth_error (centers c) 0 = Some [21; 18; 165].
Proof.
  split; [exact drift_fit_shape|]. split; [exact drift_fit_means|].
  eexists. split; [vm_compute; reflexivity|].
  repeat split.
Qed.

Lemma effective_palette_size_witness :
  fit_shape 3 (getdata rgb_three) three_fit
  /\ minimal_inertia 0 3 (getdata rgb_three) three_fit
  /\ exists c, cluster_pixels simple_fit 0 (getdata rgb_three) 10 = Some c
       /\ num_colors_used c = 3
       /\ quantized_pixels c = getdata rgb_three.
Proof.
  split; [exact three_fit_shape|]. split; [exact three_fit_minimal|].
  destruct (proj2 (effective_palette_size simple_fit 0 (getdata rgb_three) 10)
              three_fit eq_refl three_fit_shape)
    as (c & Hc & Hk & _ & Hnoop).
  exists c. split; [exact Hc|]. split; [exact Hk|].
  apply (Hnoop ltac:(vm_compute; discriminate)
               ltac:(repeat constructor; lia)
               0%Q ltac:(lra) three_fit_minimal).
  exact three_fit_integral.
Defined.

(** C3 as stated fails: with as many clusters as colours the centres come
    back a rounding error away from the colours, and the cast drops the
    fraction.  On the image above, of two colours, the pixel (21,19,165)
    comes out as (21,18,165). *)
Lemma effective_palette_counterexample :
  count_unique (getdata rgb_drift) <= 2
  /\ fit_shape 2 (getdata rgb_drift) drift_fit
  /\ minimal_inertia (1 # 1000000) 2 (getdata rgb_drift) drift_fit
  /\ exists c,
       cluster_pixels centred_fit 0 (getdata rgb_drift) 2 = Some c
       /\ nth_error (getdata rgb_drift) 0 = Some [21; 19; 165]
       /\ nth_error (quantized_pixels c) 0 = Some [21; 18; 165]
       /\ quantized_pixels c <> getdata rgb_drift.
Proof.
  split; [vm_compute; discriminate|].
  split; [exact drift_fit_shape|]. split; [exact drift_fit_minimal|].
  eexists. split; [vm_compute; reflexivity|].
  repeat split. discriminate.
Qed.

Lemma alpha_channel_preserved_witness :
  (exists q, ColorQuantizer.quantize_colors rgba_2x2 2 = Some q
     /\ last_band (ColorQuantizer.img_result q) = [255; 255; 0; 0])
  /\ (exists result out,
        quantize_colors simple_fit files 0 "mixed.png" 8 None
        = save_and_return files result out
        /\ last_band result = [255; 128; 7; 0]).
Proof.
  destruct (alpha_channel_preserved simple_fit) as (Hu & Hc & _).
  split.
  - destruct (Hu rgba_2x2 2 eq_refl) as (Hkeep & Hret).
    destruct (Hret ltac:(discriminate) ltac:(discriminate)) as (q & Hq).
    exists q. split; [exact Hq|].
    now destruct (Hkeep q Hq) as (_ & _ & Ha).
  - destruct (Hc files 0 "mixed.png"%string 8 None rgba_mixed mixed_fit
                eq_refl eq_refl) as (result & out & Hr & _ & _ & Ha & _).
    + repeat constructor.
    + reflexivity.
    + exact mixed_fit_shape.
    + exists result, out. split; [exact Hr | exact Ha].
Defined.

Lemma color_count_never_grows_witness :
  (exists q, ColorQuantizer.quantize_colors rgba_2x2 2 = Some q
     /\ ColorQuantizer.result_colors q <= ColorQuantizer.original_colors q)
  /\ (exists c, cluster_pixels simple_fit 0 (getdata rgb_pair) 1 = Some c
        /\ count_unique (quantized_pixels c) <= count_unique (getdata rgb_pair)).
Proof.
  destruct (color_count_never_grows simple_fit) as (Hu & Hc).
  split.
  - destruct (ColorQuantizer.quantize_colors rgba_2x2 2) as [q|] eqn:E.
    + exists q. split; [reflexivity | exact (Hu rgba_2x2 2 q E)].
    + vm_compute in E. discriminate.
  - destruct (Hc 0 (getdata rgb_pair) 1 pair_fit ltac:(lia) eq_refl
                pair_fit_shape) as (c & Hcl & _ & Hle & _).
    exists c. split; [exact Hcl | exact Hle].
Defined.

(** C6 as stated fails for the uniform quantizer: three colours stay three
    colours with two shades per channel. *)
Lemma color_count_counterexample :
  exists q, ColorQuantizer.quantize_colors rgb_three 2 = Some q
    /\ ColorQuantizer.original_colors q = 3
    /\ ColorQuantizer.result_colors q = 3
    /\ 2 < ColorQuantizer.original_colors q.
Proof. eexists. vm_compute. repeat split; reflexivity. Qed.

End Instances.

Section UniformInstances.

Import Py Numpy PIL Samples ColorQuantizer.

#[local] Existing Instance pillow.

Lemma shade_count_one_is_not_rejected_witness :
  load_image files "three.bmp" = Some rgb_three
  /\ convert "RGB" rgb_three <> None
  /\ exists q, quantize_colors rgb_three 1 = Some q
       /\ main files {| image_path := "three.bmp"; colors := 1;
                        output := Some "out.bmp"%string |}
          = Done (write files (img_result q) "out.bmp").
Proof.
  split; [reflexivity|]. split; [discriminate|].
  destruct (proj2 (proj2 shade_count_one_is_not_rejected) files
              "three.bmp"%string "out.bmp"%string rgb_three eq_refl
              ltac:(discriminate)) as (q & Hq & _ & Hw).
  exists q. split; [exact Hq|]. apply Hw. reflexivity.
Defined.

(** C2 as stated fails: with one shade the run ends normally and the output
    file, absent before, is there afterwards, an RGB image of the input's
    size. *)
Lemma shade_count_one_counterexample :
  exists fs' im,
    main files {| image_path := "three.bmp"; colors := 1;
                  output := Some "out.bmp"%string |} = Done fs'
    /\ files "out.bmp"%string = None
    /\ fs' "out.bmp"%string = Some im
    /\ mode im = "RGB"%string /\ size im = (3, 1).
Proof.
  eexists. eexists. split; [reflexivity|].
  split; [reflexivity|]. split; [vm_compute; reflexivity|].
  split; reflexivity.
Qed.

Lemma lab_image_takes_alpha_branch_witness :
  load_image files "photo.tif" = Some lab_pixel
  /\ mode lab_pixel = "LAB"%string
  /\ convert "RGB" lab_pixel <> None
  /\ exists q, quantize_colors lab_pixel 16 = Some q
       /\ mode (img_result q) = "RGBA"%string
       /\ last_band (img_result q) = [20].
Proof.
  split; [reflexivity|]. split; [reflexivity|]. split; [discriminate|].
  destruct (lab_image_takes_alpha_branch (lib := pillow) lab_pixel
              {| mode := "RGB"; size := (1, 1); getdata := [[128; 128; 128]] |}
              16 eq_refl eq_refl ltac:(discriminate) ltac:(discriminate))
    as (_ & _ & q & Hq & Hm & _ & Hl & _).
  exists q. split; [exact Hq|]. split; [exact Hm | exact Hl].
Defined.

Lemma png_is_loaded_as_rgba_witness :
  endswith (lower "three.PNG") ".png" = true
  /\ exists image, load_image files "three.PNG" = Some image
       /\ mode image = "RGBA"%string.
Proof.
  split; [reflexivity|].
  eexists. split; [reflexivity|].
  eapply (proj1 png_is_loaded_as_rgba files "three.PNG"%string);
    reflexivity.
Defined.

End UniformInstances.

(** * Further properties of the two scripts *)

(** ** The per-sample map: order and error *)

(** The level and the output of a sample below 255, in integer terms. *)
Lemma quantize_sample_cases (N v : Z) :
  2 <= N <= 256 -> 0 <= v <= 254 ->
  exists k, quantize_sample N v = 255 * k / (N - 1)
    /\ 0 <= k <= N - 1
    /\ (k = v * N / 255 \/ (k = v * N / 255 - 1 /\ (v * N) mod 255 = 0)).
Proof.
  intros HN Hv.
  destruct (level_spec N v HN Hv) as (k & Hl & _ & Hk & Hex).
  exists k. split; [|split; assumption].
  rewrite (quantize_sample_level N v k Hl). now apply dequantize_spec.
Qed.

(** X1. Below 255 the map is monotone: a brighter sample never comes out
    darker. *)
Theorem quantize_sample_monotone (N v w : Z) :
  2 <= N <= 256 -> 0 <= v -> v <= w -> w <= 254 ->
  quantize_sample N v <= quantize_sample N w.
Proof.
  intros HN Hv Hvw Hw.
  destruct (Z.eq_dec v w) as [->|Hne]; [lia|].
  destruct (quantize_sample_cases N v HN ltac:(lia)) as (j & -> & Hj & Hjx).
  destruct (quantize_sample_cases N w HN ltac:(lia)) as (k & -> & Hk & Hkx).
  apply Z.div_le_mono; [lia|].
  assert (Hjk : j <= k); [|lia].
  assert (Hm : v * N / 255 <= w * N / 255) by (apply Z.div_le_mono; nia).
  destruct Hkx as [->|[-> Hmod]].
  - destruct Hjx as [->|[-> _]]; lia.
  - (* [w * N] is a multiple of 255, so the floor for [v] is smaller *)
    assert (v * N / 255 < w * N / 255); [|destruct Hjx as [->|[-> _]]; lia].
    apply Z.div_lt_upper_bound; [lia|].
    pose proof (Z.div_mod (w * N) 255 ltac:(lia)) as Hd.
    rewrite Hmod in Hd. nia.
Qed.

Lemma quantize_sample_monotone_witness :
  2 <= 16 <= 256 /\ 0 <= 100 /\ 100 <= 200 /\ 200 <= 254
  /\ quantize_sample 16 100 <= quantize_sample 16 200.
Proof.
  repeat (split; [lia|]).
  apply quantize_sample_monotone; lia.
Defined.

(** X2. Below 255 the output stays within one level step of the input:
    [v - 255/(N-1) - 1 < q(v) <= v + v/(N-1)]. *)
Theorem quantize_sample_error (N v : Z) :
  2 <= N <= 256 -> 0 <= v <= 254 ->
  (N - 1) * quantize_sample N v <= N * v
  /\ N * v - 255 < (N - 1) * (quantize_sample N v + 1).
Proof.
  intros HN Hv.
  destruct (quantize_sample_cases N v HN Hv) as (k & -> & Hk & Hkx).
  pose proof (Z.div_mod (255 * k) (N - 1) ltac:(lia)) as Hd.
  pose proof (Z.mod_pos_bound (255 * k) (N - 1) ltac:(lia)) as Hr.
  pose proof (Z.div_mod (v * N) 255 ltac:(lia)) as He.
  pose proof (Z.mod_pos_bound (v * N) 255 ltac:(lia)) as Hs.
  destruct Hkx as [->|[-> Hmod]]; [|rewrite Hmod in He]; split; nia.
Qed.

Lemma quantize_sample_error_witness :
  2 <= 16 <= 256 /\ 0 <= 100 <= 254
  /\ (16 - 1) * quantize_sample 16 100 <= 16 * 100
  /\ 16 * 100 - 255 < (16 - 1) * (quantize_sample 16 100 + 1).
Proof.
  split; [lia|]. split; [lia|].
  apply quantize_sample_error; lia.
Defined.

(** ** The uniform quantizer: what every output image satisfies *)

Section UniformExtras.

Import Py Numpy PIL ColorQuantizer.

Context {lib : Library}.

Lemma astype_uint8_byte (x : float64) : 0 <= astype_uint8 x <= 255.
Proof.
  unfold astype_uint8. destruct (trunc x) as [n|]; [|lia].
  pose proof (Z.mod_pos_bound n 256 ltac:(lia)). lia.
Qed.

Lemma quantize_sample_byte (N v : Z) : 0 <= quantize_sample N v <= 255.
Proof. apply astype_uint8_byte. Qed.

Lemma quantized_rows_bytes (N : Z) (a : list (list Z)) :
  Forall byte_row (map (map (quantize_sample N)) a).
Proof.
  apply Forall_map, Forall_forall. intros px _.
  apply Forall_map, Forall_forall. intros v _. apply quantize_sample_byte.
Qed.

Lemma last_byte (px : list Z) : byte_row px -> 0 <= last px 0 <= 255.
Proof.
  intros H. destruct px as [|v px]; [cbn; lia|].
  unfold byte_row in H. rewrite Forall_forall in H. apply H.
  destruct (exists_last (l := v :: px) ltac:(discriminate)) as (l & a & E).
  rewrite E, last_last. apply in_or_app. right. now left.
Qed.

Lemma In_firstn (n : nat) (l : list Z) (v : Z) : In v (firstn n l) -> In v l.
Proof.
  intros H. rewrite <- (firstn_skipn n l). apply in_or_app. now left.
Qed.

Lemma reattached_bytes (l : list (list Z)) :
  Forall byte_row l ->
  forall alpha, Forall (fun a => 0 <= a <= 255) alpha ->
  Forall byte_row
    (map (fun pa => firstn 3 (fst pa) ++ [snd pa])
       (combine (map (fun px => px ++ [255]) l) alpha)).
Proof.
  induction 1 as [|px l Hpx _ IH]; intros [|a alpha] Ha; cbn [map combine];
    try constructor.
  - cbn [fst snd]. apply Forall_app. split.
    + apply Forall_forall. intros v Hv. apply In_firstn in Hv.
      apply in_app_or in Hv as [Hv|[<-|[]]]; [|lia].
      unfold byte_row in Hpx. rewrite Forall_forall in Hpx. now apply Hpx.
    + constructor; [|constructor]. now inversion Ha.
  - apply IH. now inversion Ha.
Qed.

(** X3. Whatever the shade count, the image returned has the size and the
    number of pixels of the input, and when the input's samples are bytes so
    are all samples of the output: the cast leaves no value outside
    [0,255], also after a division by zero. *)
Theorem uniform_output_shape (image : Image) (N : Z) (q : Quantized) :
  quantize_colors image N = Some q ->
  size (img_result q) = size image
  /\ List.length (getdata (img_result q)) = List.length (getdata image)
  /\ (Forall byte_row (getdata image) ->
      Forall byte_row (getdata (img_result q))).
Proof.
  intros Hq. apply quantize_colors_Some in Hq as (rgb & E & Hr & _).
  apply convert_length in E as (_ & _ & El).
  cbv zeta in Hr. destruct (has_alpha image).
  - rewrite convert_RGB_RGBA in Hr. unfold putalpha, last_band in Hr.
    cbn [getdata mode size] in Hr.
    rewrite !length_map, <- El, Nat.eqb_refl in Hr.
    injection Hr as <-. cbn [size getdata].
    split; [reflexivity|]. split.
    + rewrite length_map, length_combine, !length_map, El. lia.
    + intros Hb. apply reattached_bytes; [apply quantized_rows_bytes|].
      apply Forall_map. eapply Forall_impl; [|exact Hb].
      cbn beta. apply last_byte.
  - injection Hr as <-. cbn [fromarray size getdata].
    split; [reflexivity|]. split; [now rewrite length_map|].
    intros _. apply quantized_rows_bytes.
Qed.

End UniformExtras.

(** ** The uniform quantizer: how many colours can remain *)

Section ColourBound.

Import Py Numpy PIL ColorQuantizer.

Context {lib : Library}.

Lemma length_zrange (n : nat) : forall lo, List.length (zrange lo n) = n.
Proof. induction n as [|n IH]; intros lo; cbn; [reflexivity | now rewrite IH]. Qed.

Lemma quantize_sample_in_values (N v : Z) :
  2 <= N <= 256 -> 0 <= v <= 255 ->
  In (quantize_sample N v) (output_values N).
Proof.
  intros HN Hv. unfold output_values. apply in_or_app.
  destruct (Z.eq_dec v 255) as [->|Hne]; [right; now left|].
  left. destruct (quantize_sample_on_grid N v HN ltac:(lia)) as (k & Hk & ->).
  apply (in_map (fun k => dequantize N (of_Z k))).
  apply In_zrange. lia.
Qed.

Lemma length_output_values (N : Z) :
  0 <= N -> Z.of_nat (List.length (output_values N)) = N + 1.
Proof.
  intros HN. unfold output_values.
  rewrite length_app, length_map, length_zrange. cbn [List.length]. lia.
Qed.

Lemma length_flat_map_const {A B : Type} (f : A -> list B) (c : nat) (l : list A) :
  (forall x, List.length (f x) = c) ->
  List.length (flat_map f l) = (List.length l * c)%nat.
Proof.
  intros Hf. induction l as [|x l IH]; cbn [flat_map List.length]; [reflexivity|].
  rewrite length_app, Hf, IH. lia.
Qed.

Lemma length_triples (G : list Z) :
  List.length (triples G)
  = (List.length G * (List.length G * List.length G))%nat.
Proof.
  unfold triples. apply length_flat_map_const. intros a.
  apply length_flat_map_const. intros b. apply length_map.
Qed.

Lemma In_triples (G : list Z) (a b c : Z) :
  In a G -> In b G -> In c G -> In [a; b; c] (triples G).
Proof.
  intros Ha Hb Hc. unfold triples.
  apply in_flat_map. exists a. split; [exact Ha|].
  apply in_flat_map. exists b. split; [exact Hb|].
  now apply (in_map (fun c => [a; b; c])).
Qed.

Lemma quantized_row_in_triples (N : Z) (px : list Z) :
  2 <= N <= 256 -> List.length px = 3%nat -> byte_row px ->
  In (map (quantize_sample N) px) (triples (output_values N)).
Proof.
  intros HN Hl Hb.
  destruct px as [|a [|b [|c [|d px]]]]; try discriminate.
  inversion Hb as [|? ? Ha Hb1]; subst.
  inversion Hb1 as [|? ? Hb' Hb2]; subst.
  inversion Hb2 as [|? ? Hc _]; subst.
  cbn [map]. apply In_triples; now apply quantize_sample_in_values.
Qed.

(** X4. With [N] shades per channel at most [(N+1)^3] distinct colours
    remain: each channel takes one of the [N] level values or the value that
    sample 255 is sent to. *)
Theorem uniform_colour_bound (image rgb : Image) (N : Z) (q : Quantized) :
  2 <= N <= 256 ->
  convert "RGB" image = Some rgb ->
  Forall (fun px => List.length px = 3%nat /\ byte_row px) (getdata rgb) ->
  quantize_colors image N = Some q ->
  result_colors q <= (N + 1) * (N + 1) * (N + 1).
Proof.
  intros HN Hc Hwf Hq.
  apply quantize_colors_Some in Hq as (rgb' & Hc' & _ & _ & Hr).
  rewrite Hc in Hc'. injection Hc' as <-. cbv zeta in Hr.
  rewrite Hr.
  replace ((N + 1) * (N + 1) * (N + 1))
    with (Z.of_nat (List.length (triples (output_values N)))).
  - apply count_unique_incl. intros row Hrow.
    apply in_map_iff in Hrow as (px & <- & Hpx).
    rewrite Forall_forall in Hwf. destruct (Hwf px Hpx) as [Hl Hb].
    now apply quantized_row_in_triples.
  - rewrite length_triples, !Nat2Z.inj_mul, length_output_values by lia. ring.
Qed.

Lemma zero_shades_table :
  forallb (fun v => quantize_sample 0 v =? 0) (zrange 0 256) = true.
Proof. vm_compute. reflexivity. Qed.

(** X5. A shade count of 0 is accepted as well: every byte sample comes out
    as 0, so an image without alpha is returned all black. *)
Theorem zero_shades_black (image rgb : Image) (q : Quantized) :
  convert "RGB" image = Some rgb ->
  Forall byte_row (getdata rgb) ->
  has_alpha image = false ->
  quantize_colors image 0 = Some q ->
  getdata (img_result q) = map (map (fun _ => 0)) (getdata rgb).
Proof.
  intros Hc Hb Ha Hq.
  apply quantize_colors_Some in Hq as (rgb' & Hc' & Hr & _).
  rewrite Hc in Hc'. injection Hc' as <-. cbv zeta in Hr.
  rewrite Ha in Hr. injection Hr as <-. cbn [fromarray getdata].
  apply map_ext_in. intros px Hpx. apply map_ext_in. intros v Hv.
  rewrite Forall_forall in Hb. specialize (Hb px Hpx).
  unfold byte_row in Hb. rewrite Forall_forall in Hb. specialize (Hb v Hv).
  pose proof zero_shades_table as T. rewrite forallb_forall in T.
  specialize (T v (In_zrange 256 0 v ltac:(lia))). now apply Z.eqb_eq in T.
Qed.

End ColourBound.

(** ** Paths *)

Section Paths.

Import Py.

Lemma append_empty_r (s : string) : String.append s EmptyString = s.
Proof. induction s as [|c s IH]; cbn; [reflexivity | now rewrite IH]. Qed.

Lemma length_append (s t : string) :
  String.length (String.append s t) = (String.length s + String.length t)%nat.
Proof. induction s as [|c s IH]; cbn; [reflexivity | now rewrite IH]. Qed.

Lemma substring_all (s : string) : substring 0 (String.length s) s = s.
Proof. induction s as [|c s IH]; cbn; [reflexivity | now rewrite IH]. Qed.

Lemma substring_split (s : string) :
  forall d,
  String.append (substring 0 d s) (substring d (String.length s - d) s) = s.
Proof.
  induction s as [|c s IH]; intros [|d]; cbn [substring String.length Nat.sub].
  - reflexivity.
  - reflexivity.
  - cbn [String.append]. now rewrite substring_all.
  - cbn [String.append]. now rewrite IH.
Qed.

(** Root and extension make up the path. *)
Lemma splitext_concat (p : string) :
  String.append (fst (splitext p)) (snd (splitext p)) = p.
Proof.
  unfold splitext. destruct (_ <? _); [|apply append_empty_r].
  destruct (all_dots _); [apply append_empty_r|].
  cbn [fst snd]. apply substring_split.
Qed.

Lemma splitext_length (p : string) :
  (String.length (fst (splitext p)) + String.length (snd (splitext p)))%nat
  = String.length p.
Proof. now rewrite <- length_append, splitext_concat. Qed.

End Paths.

(** ** [main] of [color_quantizer.py] *)

Section UniformMain.

Import Py Numpy PIL ColorQuantizer.

Context {lib : Library}.

Lemma default_output_length (p : string) (n : Z) :
  (String.length p < String.length (default_output p n))%nat.
Proof.
  unfold default_output. pose proof (splitext_length p) as H.
  destruct (splitext p) as [file_name file_ext]. cbn [fst snd] in H.
  rewrite !length_append. cbn [String.length]. lia.
Qed.

(** X6. The name chosen when no output is given is never the input path:
    it is the input path with [_quantized_N] put before the extension. *)
Theorem default_output_is_new (p : string) (n : Z) :
  default_output p n <> p
  /\ default_output p n
     = String.append (fst (splitext p))
         (String.append "_quantized_" (String.append (str n) (snd (splitext p))))
  /\ String.append (fst (splitext p)) (snd (splitext p)) = p.
Proof.
  split; [|split].
  - intros E. pose proof (default_output_length p n) as H. rewrite E in H. lia.
  - unfold default_output. now destruct (splitext p).
  - apply splitext_concat.
Qed.

(** X7. A file that cannot be opened, or a PNG that cannot be converted to
    RGBA, makes [main] return normally with every file as it was: the
    failure is printed, not raised, and nothing is written. *)
Theorem main_load_failure (fs : FileSystem) (args : Args) :
  (fs (image_path args) = None
   \/ exists img, fs (image_path args) = Some img
        /\ endswith (lower (image_path args)) ".png" = true
        /\ convert "RGBA" img = None) ->
  load_image fs (image_path args) = None /\ main fs args = Done fs.
Proof.
  intros H.
  assert (Hl : load_image fs (image_path args) = None).
  { unfold load_image. destruct H as [->|(img & -> & -> & Hc)]; [reflexivity|].
    exact Hc. }
  split; [exact Hl|]. unfold main. now rewrite Hl.
Qed.

(** A save that returns has written the image. *)
Lemma save_image_Done (fs fs' : FileSystem) (im : Image) (out : string) :
  save_image fs im out = Done fs' -> fs' = write fs im out.
Proof.
  unfold save_image, save.
  destruct (save_raises fs im out); [discriminate|]. now intros [= <-].
Qed.

(** X8. A run of [main] that returns changes no file other than the output
    path; after a successful load that path holds the quantized image.
    When no output is given, the input file itself is left as it was. *)
Theorem main_writes_only_output (fs fs' : FileSystem) (args : Args) :
  main fs args = Done fs' ->
  (forall p, p <> output_of args -> fs' p = fs p)
  /\ (forall image, load_image fs (image_path args) = Some image ->
        exists q, quantize_colors image (colors args) = Some q
                  /\ fs' (output_of args) = Some (img_result q))
  /\ (output args = None -> fs' (image_path args) = fs (image_path args)).
Proof.
  intros Hm. unfold main in Hm. fold (output_of args) in Hm.
  assert (Hframe : forall p, p <> output_of args -> fs' p = fs p).
  { intros p Hp.
    destruct (load_image fs (image_path args)) as [image|].
    - destruct (quantize_colors image (colors args)) as [q|]; [|discriminate].
      apply save_image_Done in Hm as ->. unfold write.
      apply String.eqb_neq in Hp. now rewrite Hp.
    - now injection Hm as <-. }
  split; [exact Hframe|]. split.
  - intros image Hl. rewrite Hl in Hm.
    destruct (quantize_colors image (colors args)) as [q|]; [|discriminate].
    apply save_image_Done in Hm as ->. exists q. split; [reflexivity|].
    unfold write. now rewrite String.eqb_refl.
  - intros Ho. apply Hframe. unfold output_of. rewrite Ho.
    intros E.
    pose proof (default_output_length (image_path args) (colors args)) as H.
    rewrite <- E in H. lia.
Qed.

End UniformMain.

(** ** [shader_down.py]: files, modes and colour counts *)

Section ClusterExtras.

Import Py Numpy PIL ShaderDown.

Context {lib : Library}.

Variable KMeans :
  Z -> option Z -> Z -> Entropy -> list (list Z) -> option Fit.

Lemma sd_default_output_length (p : string) (n : Z) :
  (String.length p < String.length (default_output p n))%nat.
Proof.
  unfold default_output. pose proof (splitext_length p) as H.
  destruct (splitext p) as [file_name file_ext]. cbn [fst snd] in H.
  rewrite !length_append. cbn [String.length]. lia.
Qed.

(** The run of [quantize_colors], case by case. *)
Lemma sd_quantize_colors_cases (fs : FileSystem) (g : Entropy)
    (image_path : string) (K : Z) (output_path : option string) :
  match fs image_path with
  | None => quantize_colors KMeans fs g image_path K output_path = Done (fs, None)
  | Some img0 =>
      match flattened_of img0 with
      | None => quantize_colors KMeans fs g image_path K output_path
                = Done (fs, None)
      | Some X =>
          let img_mode := if String.eqb (mode img0) "RGBA" then "RGBA"%string
                          else "RGB"%string in
          match cluster_pixels KMeans g X K with
          | None => quantize_colors KMeans fs g image_path K output_path = Raise
          | Some c =>
              exists img, List.length (getdata img) = List.length (getdata img0)
                /\ size img = size img0
                /\ quantize_colors KMeans fs g image_path K output_path
                   = match assemble img img_mode (quantized_pixels c) with
                     | None => Raise
                     | Some quantized_img =>
                         let o := match output_path with
                                  | Some o => o
                                  | None => default_output image_path
                                              (num_colors_used c)
                                  end in
                         save_and_return fs quantized_img o
                     end
          end
      end
  end.
Proof.
  unfold quantize_colors, flattened_of.
  destruct (fs image_path) as [img0|]; [|reflexivity].
  destruct (String.eqb (mode img0) "RGBA") eqn:Em.
  - cbn [String.eqb Ascii.eqb Bool.eqb].
    destruct (cluster_pixels KMeans g _ K) as [c|]; [|reflexivity].
    exists img0. repeat split; reflexivity.
  - destruct (convert "RGB" img0) as [rgb|] eqn:Ec; [|reflexivity].
    cbn [option_map String.eqb Ascii.eqb Bool.eqb].
    destruct (cluster_pixels KMeans g _ K) as [c|]; [|reflexivity].
    apply convert_length in Ec as (_ & Hs & Hl).
    exists rgb. repeat split; assumption || reflexivity.
Qed.

(** X9. A file that cannot be opened or converted to RGB makes
    [quantize_colors] return [None] and [main] return normally, with every
    file as it was and without calling the clustering step. *)
Theorem cluster_load_failure (fs : FileSystem) (g : Entropy) (args : Args) :
  (fs (image_path args) = None
   \/ exists img, fs (image_path args) = Some img /\ flattened_of img = None) ->
  quantize_colors KMeans fs g (image_path args) (colors args) (output args)
  = Done (fs, None)
  /\ main KMeans fs g args = Done fs.
Proof.
  intros H.
  assert (Hq : quantize_colors KMeans fs g (image_path args) (colors args)
                 (output args) = Done (fs, None)).
  { pose proof (sd_quantize_colors_cases fs g (image_path args) (colors args)
                  (output args)) as C.
    destruct H as [Hn|(img & Hs & Hf)].
    - now rewrite Hn in C.
    - now rewrite Hs, Hf in C. }
  split; [exact Hq|]. unfold main. now rewrite Hq.
Qed.

(** X10. A run of [quantize_colors] that returns a path has written that
    path and changed no other file; it returns the path it was given, and
    when it was given none the input file is left as it was.  A run that
    returns [None] has written nothing. *)
Theorem cluster_writes_only_output (fs fs' : FileSystem) (g : Entropy)
    (image_path : string) (K : Z) (output_path r : option string) :
  quantize_colors KMeans fs g image_path K output_path = Done (fs', r) ->
  (r = None -> fs' = fs)
  /\ (forall o, r = Some o ->
        (forall p, p <> o -> fs' p = fs p)
        /\ fs' o <> None
        /\ (forall o', output_path = Some o' -> o = o'))
  /\ (output_path = None -> fs' image_path = fs image_path).
Proof.
  intros Hq.
  pose proof (sd_quantize_colors_cases fs g image_path K output_path) as C.
  destruct (fs image_path) as [img0|] eqn:Ef.
  2:{ rewrite C in Hq. injection Hq as <- <-.
      repeat split; try discriminate; try reflexivity; intros; assumption. }
  destruct (flattened_of img0) as [X|].
  2:{ rewrite C in Hq. injection Hq as <- <-.
      repeat split; try discriminate; try reflexivity; intros; assumption. }
  cbv zeta in C.
  destruct (cluster_pixels KMeans g X K) as [c|]; [|rewrite C in Hq; discriminate].
  destruct C as (img & _ & _ & C). rewrite C in Hq.
  destruct (assemble img _ (quantized_pixels c)) as [qi|]; [|discriminate].
  cbv zeta in Hq. apply save_and_return_Done in Hq as [-> ->].
  assert (Hframe : forall o p, p <> o -> write fs qi o p = fs p).
  { intros o p Hp. unfold write. apply String.eqb_neq in Hp. now rewrite Hp. }
  split; [discriminate|]. split.
  - intros o [= <-]. split; [apply Hframe|]. split.
    + rewrite write_at. discriminate.
    + intros o' ->. reflexivity.
  - intros ->. rewrite Hframe; [exact Ef|].
    intros E. pose proof (sd_default_output_length image_path (num_colors_used c)) as H.
    rewrite <- E in H. lia.
Qed.

(** X11. When no output path is given, the name written carries the number
    of colours actually asked of the clustering step, [min K D], not the
    requested [K]. *)
Theorem cluster_default_name (fs fs' : FileSystem) (g : Entropy)
    (image_path : string) (K : Z) (img0 : Image) (X : list (list Z))
    (o : string) :
  fs image_path = Some img0 ->
  flattened_of img0 = Some X ->
  quantize_colors KMeans fs g image_path K None = Done (fs', Some o) ->
  o = default_output image_path (Z.min K (count_unique X)).
Proof.
  intros Hf HX Hq.
  pose proof (sd_quantize_colors_cases fs g image_path K None) as C.
  rewrite Hf, HX in C. cbv zeta in C.
  destruct (cluster_pixels KMeans g X K) as [c|] eqn:Ec;
    [|rewrite C in Hq; discriminate].
  destruct C as (img & _ & _ & C). rewrite C in Hq.
  destruct (assemble img _ (quantized_pixels c)) as [qi|]; [|discriminate].
  cbv zeta in Hq. apply save_and_return_Done in Hq as [_ [= ->]].
  f_equal. rewrite <- effective_num_colors_min.
  unfold cluster_pixels in Ec.
  destruct (KMeans _ _ _ _ _) as [[ls cs]|]; [|discriminate].
  destruct (take _ ls); [|discriminate]. now injection Ec as <-.
Qed.

(** X12. Whatever the clustering step returns, the palette and the
    quantized pixels hold bytes only, one quantized pixel per label, each of
    them a palette entry. *)
Theorem cluster_palette_bytes (g : Entropy) (X : list (list Z)) (K : Z)
    (c : Clustered) :
  cluster_pixels KMeans g X K = Some c ->
  Forall byte_row (centers c)
  /\ Forall byte_row (quantized_pixels c)
  /\ List.length (quantized_pixels c) = List.length (labels c)
  /\ incl (quantized_pixels c) (centers c)
  /\ original_color_count c = count_unique X.
Proof.
  unfold cluster_pixels.
  destruct (KMeans _ _ _ _ _) as [[ls cs]|]; [|discriminate].
  destruct (take (map (map astype_uint8) cs) ls) as [q|] eqn:Eq; [|discriminate].
  intros [= <-]. cbn [centers quantized_pixels labels original_color_count].
  assert (Hc : Forall byte_row (map (map astype_uint8) cs)).
  { apply Forall_map, Forall_forall. intros centre _.
    apply Forall_map, Forall_forall. intros x _. apply astype_uint8_byte. }
  pose proof (take_incl _ _ _ Eq) as Hin.
  repeat split; try assumption.
  - apply Forall_forall. intros px Hpx. rewrite Forall_forall in Hc.
    apply Hc. now apply Hin.
  - now destruct (take_nth _ _ _ Eq).
Qed.

(** X13. Under the shape contract of the clustering step, at most [K]
    distinct colours are left, for any [K >= 0]. *)
Theorem cluster_colour_bound (g : Entropy) (X : list (list Z)) (K : Z) (f : Fit) :
  let k := effective_num_colors (count_unique X) K in
  0 <= K ->
  KMeans k (Some 42) 10 g X = Some f ->
  fit_shape k X f ->
  exists c, cluster_pixels KMeans g X K = Some c
    /\ num_colors_used c <= K
    /\ count_unique (quantized_pixels c) <= K.
Proof.
  intros k HK Hfit Hshape.
  destruct (cluster_pixels_spec KMeans g X K f Hfit Hshape) as (q & Hq & Hc).
  eexists. split; [exact Hc|]. cbn [num_colors_used quantized_pixels].
  pose proof (effective_num_colors_min (count_unique X) K) as Hk. fold k in Hk.
  split; [lia|].
  pose proof (count_unique_incl q _ (take_incl _ _ _ Hq)) as Hle.
  rewrite length_map in Hle. destruct Hshape as (_ & _ & Hcen & _).
  rewrite Hcen in Hle. pose proof (count_unique_nonneg X). lia.
Qed.

(** X14. An image whose mode is not RGBA, with or without an alpha band, is
    clustered on its RGB conversion, and the image handed to [save] is an
    RGB image of the same size, three byte samples per pixel: a run that
    returns has written that image to the path it returns. *)
Theorem cluster_output_rgb (fs : FileSystem) (g : Entropy)
    (image_path : string) (K : Z) (output_path : option string)
    (img rgb : Image) (f : Fit) :
  let X := getdata rgb in
  let k := effective_num_colors (count_unique X) K in
  fs image_path = Some img ->
  mode img <> "RGBA"%string ->
  convert "RGB" img = Some rgb ->
  KMeans k (Some 42) 10 g X = Some f ->
  fit_shape k X f ->
  exists result o,
    quantize_colors KMeans fs g image_path K output_path
    = save_and_return fs result o
    /\ mode result = "RGB"%string
    /\ size result = size img
    /\ List.length (getdata result) = List.length (getdata img)
    /\ Forall (fun px => List.length px = 3%nat /\ byte_row px) (getdata result)
    /\ forall fs' r,
         quantize_colors KMeans fs g image_path K output_path = Done (fs', r) ->
         r = Some o /\ fs' o = Some result.
Proof.
  intros X k Hfs Hm Hc Hfit Hshape.
  destruct (cluster_pixels_spec KMeans g X K f Hfit Hshape) as (q & Hq & Hcl).
  destruct (take_nth _ _ _ Hq) as [Hql _].
  pose proof (convert_length _ _ _ Hc) as (_ & Hs & Hl).
  assert (Hrows : Forall (fun px => List.length px = 3%nat /\ byte_row px) q).
  { apply Forall_forall. intros r Hr.
    apply (take_incl _ _ _ Hq) in Hr.
    apply in_map_iff in Hr as (centre & <- & Hcentre).
    destruct Hshape as (_ & _ & _ & Hdim). rewrite Forall_forall in Hdim.
    split; [rewrite length_map; now apply Hdim|].
    apply Forall_map, Forall_forall. intros x _. apply astype_uint8_byte. }
  unfold quantize_colors. rewrite Hfs.
  apply String.eqb_neq in Hm. rewrite Hm, Hc.
  cbn [String.eqb Ascii.eqb Bool.eqb]. fold X. rewrite Hcl.
  cbn [quantized_pixels num_colors_used]. unfold assemble.
  assert (Hlen : List.length q = List.length (getdata rgb)).
  { rewrite Hql. now destruct Hshape as (-> & _). }
  rewrite Hlen, Nat.eqb_refl, rows_of_three.
  2:{ eapply Forall_impl; [|exact Hrows]. cbn beta. now intros px [H _]. }
  cbn [andb String.eqb Ascii.eqb Bool.eqb].
  eexists. eexists. split; [reflexivity|].
  unfold fromarray. cbn [mode size getdata].
  split; [reflexivity|]. split; [exact Hs|]. split; [congruence|].
  split; [exact Hrows|].
  intros fs' r Hd. apply save_and_return_Done in Hd as [-> ->].
  split; [reflexivity | apply write_at].
Qed.

End ClusterExtras.

(** ** The top sample *)

Lemma top_sample_table :
  forallb (fun N => (quantize_sample N 255 =? (255 * N / (N - 1)) mod 256)
                    && ((N =? 256) || (quantize_sample N 254 =? 255)))
          (zrange 2 255) = true.
Proof. vm_compute. reflexivity. Qed.

(** X15. Sample 255 is sent to level [N], whose value [255 * N / (N - 1)]
    leaves the byte range and is stored modulo 256: white never stays
    white, and for [N <= 255] its output lies below that of sample 254,
    which is 255. *)
Theorem top_sample_wraps (N : Z) :
  2 <= N <= 256 ->
  quantize_sample N 255 = (255 * N / (N - 1)) mod 256
  /\ quantize_sample N 255 < 255
  /\ (N <= 255 -> quantize_sample N 254 = 255).
Proof.
  intros HN. pose proof top_sample_table as T.
  rewrite forallb_forall in T.
  specialize (T N (In_zrange 255 2 N ltac:(lia))). cbv beta in T.
  apply andb_true_iff in T as [T1 T2]. apply Z.eqb_eq in T1.
  split; [exact T1|]. split.
  - rewrite T1.
    assert (H1 : 256 <= 255 * N / (N - 1)).
    { apply Z.div_le_lower_bound; lia. }
    assert (H2 : 255 * N / (N - 1) < 511).
    { apply Z.div_lt_upper_bound; lia. }
    pose proof (Z.div_mod (255 * N / (N - 1)) 256 ltac:(lia)) as Hd.
    pose proof (Z.mod_pos_bound (255 * N / (N - 1)) 256 ltac:(lia)) as Hm.
    assert (255 * N / (N - 1) / 256 = 1); [|lia].
    symmetry. apply Z.div_unique with (255 * N / (N - 1) - 256); lia.
  - intros Hle. apply orb_true_iff in T2 as [T2|T2].
    + apply Z.eqb_eq in T2. lia.
    + now apply Z.eqb_eq in T2.
Qed.

Lemma top_sample_wraps_witness :
  2 <= 16 <= 256
  /\ quantize_sample 16 255 = 16 /\ quantize_sample 16 254 = 255.
Proof.
  split; [lia|].
  destruct (top_sample_wraps 16 ltac:(lia)) as (H1 & _ & H3).
  split; [exact H1 | apply H3; lia].
Defined.

(** ** The properties above at work on the sample files *)

Section UniformExtraInstances.

Import Py Numpy PIL Samples ColorQuantizer.

#[local] Existing Instance pillow.

Lemma uniform_output_shape_witness :
  exists q, quantize_colors rgba_2x2 2 = Some q
    /\ size (img_result q) = (2, 2)
    /\ List.length (getdata (img_result q)) = 4%nat
    /\ Forall byte_row (getdata (img_result q)).
Proof.
  destruct (quantize_colors rgba_2x2 2) as [q|] eqn:E;
    [|vm_compute in E; discriminate].
  exists q. split; [reflexivity|].
  destruct (uniform_output_shape (lib := pillow) rgba_2x2 2 q E) as (Hs & Hl & Hb).
  split; [exact Hs|]. split; [exact Hl|].
  apply Hb. repeat constructor; lia.
Defined.

Lemma uniform_colour_bound_witness :
  2 <= 2 <= 256
  /\ convert "RGB" rgb_three = Some rgb_three
  /\ exists q, quantize_colors rgb_three 2 = Some q /\ result_colors q <= 27.
Proof.
  split; [lia|]. split; [reflexivity|].
  destruct (quantize_colors rgb_three 2) as [q|] eqn:E;
    [|vm_compute in E; discriminate].
  exists q. split; [reflexivity|].
  apply (uniform_colour_bound (lib := pillow) rgb_three rgb_three 2 q ltac:(lia) eq_refl);
    [|exact E].
  repeat constructor; lia.
Defined.

Lemma zero_shades_black_witness :
  convert "RGB" rgb_three = Some rgb_three
  /\ has_alpha rgb_three = false
  /\ exists q, quantize_colors rgb_three 0 = Some q
       /\ getdata (img_result q) = [[0; 0; 0]; [0; 0; 0]; [0; 0; 0]].
Proof.
  split; [reflexivity|]. split; [reflexivity|].
  destruct (quantize_colors rgb_three 0) as [q|] eqn:E;
    [|vm_compute in E; discriminate].
  exists q. split; [reflexivity|].
  apply (zero_shades_black (lib := pillow) rgb_three rgb_three q eq_refl); try reflexivity;
    [|exact E].
  repeat constructor; lia.
Defined.

Lemma main_load_failure_witness :
  files "missing.png"%string = None
  /\ main files {| image_path := "missing.png"; colors := 16; output := None |}
     = Done files.
Proof.
  split; [reflexivity|].
  apply (main_load_failure (lib := pillow) files
           {| image_path := "missing.png"; colors := 16; output := None |}).
  left. reflexivity.
Defined.

Lemma main_writes_only_output_witness :
  exists fs',
    main files {| image_path := "three.bmp"; colors := 2; output := None |}
    = Done fs'
    /\ fs' "three.bmp"%string = Some rgb_three
    /\ fs' "scene.png"%string = Some rgba_2x2.
Proof.
  eexists. split; [reflexivity|].
  destruct (main_writes_only_output (lib := pillow) files _
              {| image_path := "three.bmp"; colors := 2; output := None |}
              eq_refl) as (Hframe & _ & Hin).
  split; [exact (Hin eq_refl)|].
  apply (Hframe "scene.png"%string). vm_compute. discriminate.
Defined.

End UniformExtraInstances.

Section ClusterExtraInstances.

Import Py Numpy PIL Samples ShaderDown.

#[local] Existing Instance pillow.

Lemma cluster_load_failure_witness :
  files "missing.png"%string = None
  /\ main simple_fit files 0
       {| image_path := "missing.png"; colors := 8; output := None |}
     = Done files.
Proof.
  split; [reflexivity|].
  apply (cluster_load_failure (lib := pillow) simple_fit files 0
           {| image_path := "missing.png"; colors := 8; output := None |}).
  left. reflexivity.
Defined.

Lemma cluster_writes_only_output_witness :
  exists fs' o,
    quantize_colors simple_fit files 0 "mixed.png" 8 None = Done (fs', Some o)
    /\ fs' "mixed.png"%string = Some rgba_mixed
    /\ fs' o <> None.
Proof.
  eexists. eexists. split; [reflexivity|].
  destruct (cluster_writes_only_output (lib := pillow) simple_fit files _ 0 "mixed.png"%string
              8 None _ eq_refl) as (_ & Hout & Hin).
  split; [exact (Hin eq_refl)|].
  destruct (Hout _ eq_refl) as (_ & Hw & _). exact Hw.
Defined.

Lemma cluster_default_name_witness :
  files "mixed.png"%string = Some rgba_mixed
  /\ flattened_of rgba_mixed = Some (map (firstn 3) (getdata rgba_mixed))
  /\ exists fs' o,
       quantize_colors simple_fit files 0 "mixed.png" 8 None
       = Done (fs', Some o)
       /\ o = "mixed_quantized_3.png"%string.
Proof.
  split; [reflexivity|]. split; [reflexivity|].
  eexists. eexists. split; [reflexivity|].
  apply (cluster_default_name (lib := pillow) simple_fit files _ 0 "mixed.png"%string 8
           rgba_mixed _ _ eq_refl eq_refl eq_refl).
Defined.

Lemma cluster_palette_bytes_witness :
  exists c, cluster_pixels simple_fit 0 (getdata rgb_three) 10 = Some c
    /\ Forall byte_row (centers c)
    /\ incl (quantized_pixels c) (centers c).
Proof.
  eexists. split; [reflexivity|].
  destruct (cluster_palette_bytes simple_fit 0 (getdata rgb_three) 10 _ eq_refl)
    as (Hc & _ & _ & Hi & _).
  split; [exact Hc | exact Hi].
Defined.

Lemma cluster_colour_bound_witness :
  0 <= 1
  /\ fit_shape 1 (getdata rgb_pair) pair_fit
  /\ exists c, cluster_pixels simple_fit 0 (getdata rgb_pair) 1 = Some c
       /\ count_unique (quantized_pixels c) <= 1.
Proof.
  split; [lia|]. split; [exact pair_fit_shape|].
  destruct (cluster_colour_bound simple_fit 0 (getdata rgb_pair) 1 pair_fit
              ltac:(lia) eq_refl pair_fit_shape) as (c & Hc & _ & Hle).
  exists c. split; [exact Hc | exact Hle].
Defined.

Lemma cluster_output_rgb_witness :
  files "three.bmp"%string = Some rgb_three
  /\ mode rgb_three <> "RGBA"%string
  /\ convert "RGB" rgb_three = Some rgb_three
  /\ fit_shape 3 (getdata rgb_three) three_fit
  /\ exists result o,
       quantize_colors simple_fit files 0 "three.bmp" 10 None
       = save_and_return files result o
       /\ mode result = "RGB"%string /\ size result = (3, 1).
Proof.
  split; [reflexivity|]. split; [discriminate|]. split; [reflexivity|].
  split; [exact three_fit_shape|].
  destruct (cluster_output_rgb (lib := pillow) simple_fit files 0 "three.bmp"%string 10 None
              rgb_three rgb_three three_fit eq_refl ltac:(discriminate)
              eq_refl eq_refl three_fit_shape)
    as (result & o & Hq & Hm & Hs & _).
  exists result, o. split; [exact Hq|]. split; [exact Hm | exact Hs].
Defined.

End ClusterExtraInstances.
